(** * CVEtracker: the feed pipeline and the query logic of [app.py]

    A shallow embedding of [src/app.py]: the feed parser [parse_feed], the
    deduplicating CSV store [save_to_csv] / [load_csv], the refresh
    timestamp, the orchestration [run_tracker], and the filter / sort /
    paginate logic of the [index] view, followed by the properties the
    specification states about them.

    Conventions.
    - A Python call either returns or raises: [result A] is [Ok a] or
      [Raise e], threaded with stdpp's bind notation.
    - Python [str] and [bytes] are [string] (a sequence of bytes, UTF-8
      for text, with a lone surrogate in the same three-byte form); the
      order on [str] is the bytewise order, which on UTF-8 agrees with
      Python's code point order. Positions in a string count bytes, and
      digits, whitespace and letter case are the ASCII ones: the numeral
      readers and the case folding agree with Python on ASCII text, and
      the properties that depend on them are stated for ASCII text.
    - Python [float] is IEEE binary64, modelled by the standard library's
      [spec_float] at precision 53 and exponent bound 1024; [float(s)] is
      the correctly rounded value of the decimal numeral [s].
    - Python [int] is [Z].
    - The interpreter and its library are CPython 3.11 or later: [int]
      converts at most 4300 digits, and [csv.reader] parses fields of at
      most 131072 characters. *)

From Stdlib Require Import ZArith Lia Ascii String List Permutation Sorted.
From Stdlib Require Import Floats.SpecFloat.
From stdpp Require Import base option list sorting gmap strings.

Local Open Scope string_scope.
Local Open Scope Z_scope.

#[local] Set Warnings "-clear-no-such-hyp".

(** ** Exceptions and results *)

(** The exception classes the modelled code can raise. [CsvError] is
    [csv.Error]. [DownloadFailed] is the plain [Exception] that
    [download_feed] raises on a status other than 200; it carries the
    status code. *)
Inductive exn : Type :=
  | JSONDecodeError
  | AttributeError
  | TypeError
  | KeyError
  | IndexError
  | ValueError
  | OSError
  | UnicodeEncodeError
  | CsvError
  | DownloadFailed (status : Z).

Inductive result (A : Type) : Type :=
  | Ok (a : A)
  | Raise (e : exn).
Arguments Ok {A} a.
Arguments Raise {A} e.

#[global] Instance result_ret : MRet result := fun A a => Ok a.
#[global] Instance result_bind : MBind result := fun A B f m =>
  match m with
  | Ok a => f a
  | Raise e => Raise e
  end.
#[global] Instance result_fmap : FMap result := fun A B f m =>
  match m with
  | Ok a => Ok (f a)
  | Raise e => Raise e
  end.

Definition raises {A} (m : result A) : bool :=
  match m with
  | Ok _ => false
  | Raise _ => true
  end.

(** [[f x for x in l]] where [f] may raise: the first exception aborts the
    comprehension. *)
Fixpoint map_result {A B} (f : A -> result B) (l : list A) : result (list B) :=
  match l with
  | [] => Ok []
  | x :: l' => y ← f x; ys ← map_result f l'; Ok (y :: ys)
  end.

(** [[x for x in l if p x]] where the test [p] may raise. *)
Fixpoint filter_result {A} (p : A -> result bool) (l : list A) : result (list A) :=
  match l with
  | [] => Ok []
  | x :: l' =>
      keep ← p x; ys ← filter_result p l';
      Ok (if keep : bool then x :: ys else ys)
  end.

(** [l[i]] on a list: [IndexError] out of range (indices here are the
    literals 0 to 3, never negative). *)
Definition getitem {A} (l : list A) (i : nat) : result A :=
  match l !! i with
  | Some x => Ok x
  | None => Raise IndexError
  end.

(** ** Characters and numerals *)

Definition chars (s : string) : list ascii := list_ascii_of_string s.
Definition text (l : list ascii) : string := string_of_list_ascii l.

Definition code (c : ascii) : Z := Z.of_N (N_of_ascii c).

(** Whitespace as [str.strip] sees it in the ASCII range: tab to carriage
    return, the four separators 28 to 31, and space. *)
Definition is_space (c : ascii) : bool :=
  let n := code c in
  ((9 <=? n) && (n <=? 13)) || ((28 <=? n) && (n <=? 31)) || (n =? 32).

(** Whitespace that [int] and [float] skip around a numeral: tab to
    carriage return, and space. The separators 28 to 31 are not skipped,
    so a numeral next to one is rejected. *)
Definition is_numeral_space (c : ascii) : bool :=
  let n := code c in
  ((9 <=? n) && (n <=? 13)) || (n =? 32).

(** Text in the ASCII range. *)
Definition is_ascii (s : string) : bool :=
  forallb (fun c => code c <? 128) (chars s).

Definition is_digit (c : ascii) : bool :=
  let n := code c in (48 <=? n) && (n <=? 57).

Definition digit_val (c : ascii) : Z := code c - 48.

Fixpoint lstrip (space : ascii -> bool) (l : list ascii) : list ascii :=
  match l with
  | c :: l' => if space c then lstrip space l' else l
  | [] => []
  end.

Definition strip_chars (space : ascii -> bool) (l : list ascii) : list ascii :=
  reverse (lstrip space (reverse (lstrip space l))).

(** [s.strip()] *)
Definition strip (s : string) : string := text (strip_chars is_space (chars s)).

(** ASCII case folding, the part of [str.lower] that acts on bytes below
    128; other bytes are left as they are. *)
Definition lower_char (c : ascii) : ascii :=
  let n := code c in
  if (65 <=? n) && (n <=? 90) then ascii_of_N (Z.to_N (n + 32)) else c.

Definition lower (s : string) : string := text (map lower_char (chars s)).

(** A run of decimal digits in which single underscores may separate
    digits, as Python numerals allow: returns the digits read (most
    significant first) and the rest of the input. [prev] tells whether the
    previous character was a digit. *)
Fixpoint digit_run (prev : bool) (l : list ascii) : list Z * list ascii :=
  match l with
  | c :: l' =>
      if is_digit c then
        let '(ds, r) := digit_run true l' in (digit_val c :: ds, r)
      else if prev && (code c =? 95) then
        match l' with
        | d :: _ => if is_digit d then digit_run false l' else ([], l)
        | [] => ([], l)
        end
      else ([], l)
  | [] => ([], [])
  end.

Definition digits_value (ds : list Z) : Z :=
  fold_left (fun acc d => 10 * acc + d) ds 0.

(** An optional sign: [true] for minus. *)
Definition read_sign (l : list ascii) : bool * list ascii :=
  match l with
  | c :: l' =>
      if code c =? 45 then (true, l')
      else if code c =? 43 then (false, l')
      else (false, l)
  | [] => (false, [])
  end.

(** A decimal integer literal as [int] reads it in ASCII text:
    surrounding whitespace, an optional sign, then digits (single
    underscores between them). The sign and the digits, or [None] when
    the text is not of this form. *)
Definition int_literal (s : string) : option (bool * list Z) :=
  let '(neg, l) := read_sign (strip_chars is_numeral_space (chars s)) in
  match digit_run false l with
  | (d :: ds, []) => Some (neg, d :: ds)
  | _ => None
  end.

(** The most digits [int] converts ([sys.int_info.default_max_str_digits]
    of CPython 3.11 and later). *)
Definition MAX_STR_DIGITS : Z := 4300.

(** [int(s)] for a [str] in base 10: the value of the literal; a text
    that is not a literal, or a literal of more than 4300 digits, is a
    [ValueError], here [None]. *)
Definition py_int (s : string) : option Z :=
  match int_literal s with
  | Some (neg, ds) =>
      if MAX_STR_DIGITS <? Z.of_nat (length ds) then None
      else let v := digits_value ds in Some (if neg then - v else v)
  | None => None
  end.

(** ** Floats *)

Definition prec : Z := 53.
Definition emax : Z := 1024.

Definition float_of_Z (z : Z) : spec_float := binary_normalize prec emax z 0 false.

(** The quotient [n / d] of two positive integers rounded to the nearest
    binary64, ties to even: the quotient is computed with at least ten
    bits more than the format holds, and the remainder tells on which
    side of the midpoint the exact value lies. *)
Definition round_ratio (neg : bool) (n d : Z) : spec_float :=
  let s := Z.max 0 (64 + Zdigits2 d - Zdigits2 n) in
  let q := (n * 2 ^ s) / d in
  let r := (n * 2 ^ s) mod d in
  let loc := if r =? 0 then loc_Exact else loc_Inexact (Z.compare (2 * r) d) in
  binary_round_aux prec emax neg q (- s) loc.

(** The binary64 nearest to [m * 10 ^ e10], for [0 <= m]. With [b] the
    position of the leading bit of [m], the value is at least
    [2 ^ (b + 3 * e10)] for a positive exponent and lies between
    [2 ^ (b + 4 * e10)] and [2 ^ (b + 1 + 3 * e10)] for a negative one:
    beyond [2 ^ 1100] it overflows to an infinity and below [2 ^ -1100] it
    rounds to zero, which spares computing the power. *)
Definition round_decimal (neg : bool) (m : Z) (e10 : Z) : spec_float :=
  let b := Z.log2 m in
  if m =? 0 then S754_zero neg
  else if 0 <=? e10 then
    if 1100 <? b + 3 * e10 then S754_infinity neg
    else round_ratio neg (m * 10 ^ e10) 1
  else if 1100 <? b + 4 * e10 then S754_infinity neg
  else if b + 1 + 3 * e10 <? - 1100 then S754_zero neg
  else round_ratio neg m (10 ^ (- e10)).

(** The exponent part of a numeral, [e] or [E] with an optional sign and
    digits: the exponent and the rest, or [None] when an [e] is not
    followed by digits. No exponent part reads as exponent 0. *)
Definition read_exponent (l : list ascii) : option (Z * list ascii) :=
  match l with
  | c :: l' =>
      if (code c =? 101) || (code c =? 69) then
        let '(neg, l1) := read_sign l' in
        match digit_run false l1 with
        | (d :: ds, r) =>
            let v := digits_value (d :: ds) in Some (if neg then - v else v, r)
        | _ => None
        end
      else Some (0, l)
  | [] => Some (0, [])
  end.

(** [float(s)] for a [str] of ASCII text: surrounding whitespace, an
    optional sign, then [inf], [infinity] or [nan] in any case, or a
    decimal numeral with an optional fraction and exponent and at least
    one digit before the exponent. [None] stands for the [ValueError]. *)
Definition py_float (s : string) : option spec_float :=
  let '(neg, l) := read_sign (strip_chars is_numeral_space (chars s)) in
  let word := text (map lower_char l) in
  if (word =? "inf")%string || (word =? "infinity")%string
  then Some (S754_infinity neg)
  else if (word =? "nan")%string then Some S754_nan
  else
    let '(ip, l1) := digit_run false l in
    let '(fp, l2) :=
      match l1 with
      | c :: l1' => if code c =? 46 then digit_run false l1' else ([], l1)
      | [] => ([], [])
      end in
    match (ip ++ fp)%list with
    | [] => None
    | ds =>
        match read_exponent l2 with
        | Some (e, []) =>
            Some (round_decimal neg (digits_value ds) (e - Z.of_nat (length fp)))
        | _ => None
        end
    end.

(** [s <= k] for a float [s] and an [int] literal [k]; the literals used
    below are exactly representable. *)
Definition float_le_int (s : spec_float) (k : Z) : bool := SFleb s (float_of_Z k).
Definition float_gt_int (s : spec_float) (k : Z) : bool := SFltb (float_of_Z k) s.

(** ** Severity buckets: [get_score_bucket] (inside [index]) *)

(** The result is Python's [None] ([None] here) when no branch of the
    chain returns, and 9 when [float(score)] raises. *)
Definition get_score_bucket (score : string) : option Z :=
  match py_float score with
  | Some s =>
      if float_le_int s 2 then Some 0
      else if float_le_int s 3 then Some 1
      else if float_le_int s 4 then Some 2
      else if float_le_int s 5 then Some 3
      else if float_le_int s 6 then Some 4
      else if float_le_int s 7 then Some 5
      else if float_le_int s 8 then Some 6
      else if float_le_int s 9 then Some 7
      else if float_le_int s 10 then Some 8
      else None
  | None => Some 9
  end.

(** ** Decoded JSON: the objects [json.loads] builds *)

(** A [dict] is kept as the list of its items in insertion order, with no
    key twice. *)
#[warnings="-register-all"]
Inductive value : Type :=
  | VNone
  | VBool (b : bool)
  | VInt (n : Z)
  | VFloat (f : spec_float)
  | VStr (s : string)
  | VList (l : list value)
  | VDict (d : list (string * value)).

Fixpoint dict_lookup (k : string) (d : list (string * value)) : option value :=
  match d with
  | [] => None
  | (k', v) :: d' => if (k' =? k)%string then Some v else dict_lookup k d'
  end.

(** [d[k] = v]: a key already present keeps its place and takes the new
    value. *)
Fixpoint dict_set (k : string) (v : value) (d : list (string * value))
  : list (string * value) :=
  match d with
  | [] => [(k, v)]
  | (k', v') :: d' =>
      if (k' =? k)%string then (k, v) :: d' else (k', v') :: dict_set k v d'
  end.

(** *** The decoder *)

Definition byte_of (n : Z) : ascii := ascii_of_N (Z.to_N n).

(** UTF-8 bytes of a code point; a lone surrogate is written in the same
    three-byte form. *)
Definition utf8 (cp : Z) : list ascii :=
  if cp <? 128 then [byte_of cp]
  else if cp <? 2048 then
    [byte_of (192 + cp / 64); byte_of (128 + cp mod 64)]
  else if cp <? 65536 then
    [byte_of (224 + cp / 4096); byte_of (128 + (cp / 64) mod 64);
     byte_of (128 + cp mod 64)]
  else
    [byte_of (240 + cp / 262144); byte_of (128 + (cp / 4096) mod 64);
     byte_of (128 + (cp / 64) mod 64); byte_of (128 + cp mod 64)].

Definition hex_val (c : ascii) : option Z :=
  let n := code c in
  if (48 <=? n) && (n <=? 57) then Some (n - 48)
  else if (97 <=? n) && (n <=? 102) then Some (n - 87)
  else if (65 <=? n) && (n <=? 70) then Some (n - 55)
  else None.

(** Four hexadecimal digits. *)
Definition hex4 (l : list ascii) : option (Z * list ascii) :=
  match l with
  | a :: b :: c :: d :: r =>
      a ← hex_val a; b ← hex_val b; c ← hex_val c; d ← hex_val d;
      Some (((a * 16 + b) * 16 + c) * 16 + d, r)
  | _ => None
  end.

(** A [\uXXXX] escape after its [\u]; a high surrogate followed by an
    escaped low surrogate makes one code point. *)
Definition unicode_escape (l : list ascii) : option (Z * list ascii) :=
  '(u, r) ← hex4 l;
  if (55296 <=? u) && (u <=? 56319) then
    match r with
    | b :: c :: r' =>
        if (code b =? 92) && (code c =? 117) then
          match hex4 r' with
          | Some (u2, r'') =>
              if (56320 <=? u2) && (u2 <=? 57343)
              then Some (65536 + (u - 55296) * 1024 + (u2 - 56320), r'')
              else Some (u, r)
          | None => Some (u, r)
          end
        else Some (u, r)
    | _ => Some (u, r)
    end
  else Some (u, r).

Definition simple_escape (c : ascii) : option ascii :=
  let n := code c in
  if (n =? 34) || (n =? 92) || (n =? 47) then Some c
  else if n =? 98 then Some (byte_of 8)
  else if n =? 102 then Some (byte_of 12)
  else if n =? 110 then Some (byte_of 10)
  else if n =? 114 then Some (byte_of 13)
  else if n =? 116 then Some (byte_of 9)
  else None.

(** The body of a string literal after its opening quote, up to and
    including the closing quote. Control characters must be escaped. *)
Fixpoint decode_string (fuel : nat) (l : list ascii) : option (list ascii * list ascii) :=
  match fuel, l with
  | S n, c :: r =>
      if code c =? 34 then Some ([], r)
      else if code c =? 92 then
        match r with
        | e :: r' =>
            if code e =? 117 then
              '(cp, r'') ← unicode_escape r';
              '(cs, rest) ← decode_string n r'';
              Some ((utf8 cp ++ cs)%list, rest)
            else
              c' ← simple_escape e;
              '(cs, rest) ← decode_string n r';
              Some (c' :: cs, rest)
        | [] => None
        end
      else if code c <? 32 then None
      else '(cs, rest) ← decode_string n r; Some (c :: cs, rest)
  | _, _ => None
  end.

Fixpoint take_digits (l : list ascii) : list Z * list ascii :=
  match l with
  | c :: l' =>
      if is_digit c then let '(ds, r) := take_digits l' in (digit_val c :: ds, r)
      else ([], l)
  | [] => ([], [])
  end.

(** A number after its optional minus sign: the longest prefix made of
    an integer part (a single 0, or digits not starting with 0), an
    optional fraction (a point and digits) and an optional exponent ([e]
    or [E], a sign, digits); an [int] when it has neither fraction nor
    exponent, a [float] otherwise. *)
Definition decode_number (neg : bool) (l : list ascii) : option (value * list ascii) :=
  let '(ip, l1) :=
    match l with
    | c :: l' => if code c =? 48 then ([0], l') else take_digits l
    | [] => ([], [])
    end in
  match ip with
  | [] => None
  | _ =>
      let '(fp, l2) :=
        match l1 with
        | c :: l1' =>
            if code c =? 46 then
              match take_digits l1' with
              | ([], _) => ([], l1)
              | (ds, r) => (ds, r)
              end
            else ([], l1)
        | [] => ([], [])
        end in
      let '(ex, l3) :=
        match l2 with
        | c :: l2' =>
            if (code c =? 101) || (code c =? 69) then
              let '(eneg, l2'') :=
                match l2' with
                | sg :: t =>
                    if code sg =? 45 then (true, t)
                    else if code sg =? 43 then (false, t)
                    else (false, l2')
                | [] => (false, [])
                end in
              match take_digits l2'' with
              | ([], _) => (None, l2)
              | (ds, r) =>
                  (Some (if eneg then - digits_value ds else digits_value ds), r)
              end
            else (None, l2)
        | [] => (None, [])
        end in
      match fp, ex with
      | [], None =>
          Some (VInt (if neg then - digits_value ip else digits_value ip), l3)
      | _, _ =>
          let ds := (ip ++ fp)%list in
          Some (VFloat (round_decimal neg (digits_value ds)
                          (default 0 ex - Z.of_nat (length fp))), l3)
      end
  end.

(** JSON whitespace: space, tab, line feed, carriage return. *)
Fixpoint skip_ws (l : list ascii) : list ascii :=
  match l with
  | c :: l' =>
      let n := code c in
      if (n =? 32) || (n =? 9) || (n =? 10) || (n =? 13) then skip_ws l' else l
  | [] => []
  end.

(** [l] starts with the characters of [w]: the rest of [l]. *)
Fixpoint eat (w : list ascii) (l : list ascii) : option (list ascii) :=
  match w, l with
  | [], _ => Some l
  | a :: w', b :: l' => if Ascii.eqb a b then eat w' l' else None
  | _ :: _, [] => None
  end.

Definition keyword (w : string) (v : value) (l : list ascii) : option (value * list ascii) :=
  r ← eat (chars w) l; Some (v, r).

(** One value at the head of [l] (after whitespace), the items of an array
    after its first bracket, and the members of an object after its first
    brace. [fuel] bounds the depth of the calls. *)
Fixpoint decode_value (fuel : nat) (l : list ascii) : option (value * list ascii) :=
  match fuel with
  | O => None
  | S n =>
      match skip_ws l with
      | [] => None
      | c :: r =>
          let k := code c in
          if k =? 123 then
            match skip_ws r with
            | c' :: r' => if code c' =? 125 then Some (VDict [], r')
                          else decode_members n (skip_ws r) []
            | [] => None
            end
          else if k =? 91 then
            match skip_ws r with
            | c' :: r' => if code c' =? 93 then Some (VList [], r')
                          else decode_items n (skip_ws r) []
            | [] => None
            end
          else if k =? 34 then
            '(cs, rest) ← decode_string (length r) r; Some (VStr (text cs), rest)
          else if k =? 110 then keyword "null" VNone (c :: r)
          else if k =? 116 then keyword "true" (VBool true) (c :: r)
          else if k =? 102 then keyword "false" (VBool false) (c :: r)
          else if k =? 78 then keyword "NaN" (VFloat S754_nan) (c :: r)
          else if k =? 73 then keyword "Infinity" (VFloat (S754_infinity false)) (c :: r)
          else if k =? 45 then
            match keyword "Infinity" (VFloat (S754_infinity true)) r with
            | Some res => Some res
            | None => decode_number true r
            end
          else decode_number false (c :: r)
      end
  end
with decode_items (fuel : nat) (l : list ascii) (acc : list value)
  : option (value * list ascii) :=
  match fuel with
  | O => None
  | S n =>
      '(v, r) ← decode_value n l;
      match skip_ws r with
      | c :: r' =>
          if code c =? 44 then decode_items n r' (v :: acc)
          else if code c =? 93 then Some (VList (reverse (v :: acc)), r')
          else None
      | [] => None
      end
  end
with decode_members (fuel : nat) (l : list ascii) (acc : list (string * value))
  : option (value * list ascii) :=
  match fuel with
  | O => None
  | S n =>
      match skip_ws l with
      | q :: l1 =>
          if code q =? 34 then
            '(ks, l2) ← decode_string (length l1) l1;
            match skip_ws l2 with
            | col :: l3 =>
                if code col =? 58 then
                  '(v, r) ← decode_value n l3;
                  let acc' := dict_set (text ks) v acc in
                  match skip_ws r with
                  | c :: r' =>
                      if code c =? 44 then decode_members n r' acc'
                      else if code c =? 125 then Some (VDict acc', r')
                      else None
                  | [] => None
                  end
                else None
            | [] => None
            end
          else None
      | [] => None
      end
  end.

(** [json.loads(json_data)]: one value, then nothing but whitespace. The
    document is taken as UTF-8 without a byte order mark, its integer
    literals within the 4300 digits that [int] converts. *)
Definition json_loads (json_data : string) : result value :=
  let l := chars json_data in
  match decode_value (2 * length l + 2) l with
  | Some (v, r) =>
      match skip_ws r with
      | [] => Ok v
      | _ :: _ => Raise JSONDecodeError
      end
  | None => Raise JSONDecodeError
  end.

(** ** Python operations on decoded values *)

(** [v[k]] for a string key [k] *)
Definition subscript (v : value) (k : string) : result value :=
  match v with
  | VDict d =>
      match dict_lookup k d with
      | Some x => Ok x
      | None => Raise KeyError
      end
  | _ => Raise TypeError
  end.

(** [v[0]]; a decoded [dict] has only string keys, so 0 is never one. *)
Definition subscript0 (v : value) : result value :=
  match v with
  | VList (x :: _) => Ok x
  | VList [] => Raise IndexError
  | VStr (String c _) => Ok (VStr (String c ""))
  | VStr "" => Raise IndexError
  | VDict _ => Raise KeyError
  | _ => Raise TypeError
  end.

(** [v.get(k, dflt)]: only a [dict] has the method. *)
Definition get (v : value) (k : string) (dflt : value) : result value :=
  match v with
  | VDict d => Ok (default dflt (dict_lookup k d))
  | _ => Raise AttributeError
  end.

(** Truth value of an object in a condition. *)
Definition truthy (v : value) : bool :=
  match v with
  | VNone => false
  | VBool b => b
  | VInt n => negb (n =? 0)
  | VFloat (S754_zero _) => false
  | VFloat _ => true
  | VStr s => negb (s =? "")%string
  | VList l => match l with [] => false | _ => true end
  | VDict d => match d with [] => false | _ => true end
  end.

(** The objects a [for] loop over [v] visits: the items of a list, the
    keys of a dict, the characters of a string (one per byte here); other
    objects are not iterable. *)
Definition iterate (v : value) : result (list value) :=
  match v with
  | VList l => Ok l
  | VDict d => Ok (map (fun kv => VStr (fst kv)) d)
  | VStr s => Ok (map (fun c => VStr (String c "")) (chars s))
  | _ => Raise TypeError
  end.

(** ** The feed parser: [parse_feed] *)

(** The body of the loop: the four fields of one entry. *)
Definition parse_item (item : value) : result (list value) :=
  cve ← subscript item "cve";
  meta ← subscript cve "CVE_data_meta";
  cve_id ← subscript meta "ID";
  cve' ← subscript item "cve";
  descr ← subscript cve' "description";
  descr_data ← subscript descr "description_data";
  first ← subscript0 descr_data;
  description ← subscript first "value";
  published_date ← subscript item "publishedDate";
  impact_all ← get item "impact" (VDict []);
  impact ← get impact_all "baseMetricV3" VNone;
  score ←
    (if truthy impact then
       cvss ← get impact "cvssV3" (VDict []);
       get cvss "baseScore" (VStr "N/A")
     else Ok (VStr "N/A"));
  Ok [cve_id; description; published_date; score].

Definition parse_feed (json_data : string) : result (list (list value)) :=
  data ← json_loads json_data;
  cve_items ← get data "CVE_Items" (VList []);
  items ← iterate cve_items;
  map_result parse_item items.

(** ** Text that can be written and read back *)

Definition in_range (lo hi : Z) (c : ascii) : bool :=
  (lo <=? code c) && (code c <=? hi).

(** Well-formed UTF-8: the shortest form of a code point up to U+10FFFF
    that is not a surrogate. *)
Fixpoint well_formed (l : list ascii) : bool :=
  match l with
  | [] => true
  | a :: r =>
      if code a <? 128 then well_formed r
      else if in_range 194 223 a then
        match r with
        | b :: r' => in_range 128 191 b && well_formed r'
        | _ => false
        end
      else if in_range 224 239 a then
        match r with
        | b :: c :: r' =>
            (if code a =? 224 then in_range 160 191 b
             else if code a =? 237 then in_range 128 159 b
             else in_range 128 191 b)
            && in_range 128 191 c && well_formed r'
        | _ => false
        end
      else if in_range 240 244 a then
        match r with
        | b :: c :: d :: r' =>
            (if code a =? 240 then in_range 144 191 b
             else if code a =? 244 then in_range 128 143 b
             else in_range 128 191 b)
            && in_range 128 191 c && in_range 128 191 d && well_formed r'
        | _ => false
        end
      else false
  end.

(** [s.encode('utf-8')] succeeds: the text is well-formed UTF-8. The
    three-byte form of a lone surrogate, which the decoder builds for an
    unpaired [\uD800] to [\uDFFF] escape, is not, and encoding it raises
    [UnicodeEncodeError]. *)
Definition encodable (s : string) : bool := well_formed (chars s).

(** The number of characters of a text: the bytes that do not continue a
    character. *)
Fixpoint char_count (l : list ascii) : Z :=
  match l with
  | [] => 0
  | c :: l' => (if in_range 128 191 c then 0 else 1) + char_count l'
  end.

(** [csv.field_size_limit()]: the longest field [csv.reader] parses. *)
Definition FIELD_LIMIT : Z := 131072.

(** ** The record store: [save_to_csv] and [load_csv] *)

(** A CSV file is the list of its rows, header included, each row the
    list of its fields as [csv.writer] takes them and [csv.reader] yields
    them; a blank line is the empty row. Every line of the file ends with
    a line terminator, as [csv.writer] leaves it. A path holds a file or
    nothing. Opening the store and moving its bytes are taken to succeed;
    what can fail is the parsing of a row read and the encoding of a row
    written. *)
Abbreviation row := (list string).
Abbreviation file := (option (list row)).

Definition HEADER : row :=
  ["CVE ID"; "Description"; "Published Date"; "CVSS v3.1 Score"].

(** The rows after the header. *)
Definition data_rows (f : file) : list row :=
  match f with
  | Some rows => drop 1 rows
  | None => []
  end.

(** A row that [csv.reader] parses: no field is longer than the limit. *)
Definition within_limit (r : row) : bool :=
  forallb (fun field => char_count (chars field) <=? FIELD_LIMIT) r.

(** A row that [csv.writer] can write to a file opened with
    [encoding='utf-8']. *)
Definition row_encodable (r : row) : bool := forallb encodable r.

(** The reader's next row: [csv.Error] on a field over the limit. *)
Definition read_row (r : row) : result row :=
  if within_limit r then Ok r else Raise CsvError.

(** [next(reader, None)]: the rows left after the first one is read and
    dropped. *)
Definition skip_header (rows : list row) : result (list row) :=
  match rows with
  | [] => Ok []
  | header :: rows' => _ ← read_row header; Ok rows'
  end.

(** The first loop of [save_to_csv]: each row is read, then
    [existing_ids.add(row[0])]. *)
Fixpoint add_ids (ids : gset string) (rows : list row) : result (gset string) :=
  match rows with
  | [] => Ok ids
  | r :: rows' =>
      r' ← read_row r; cve_id ← getitem r' 0; add_ids ({[cve_id]} ∪ ids) rows'
  end.

(** The identifiers found in the file, none when there is no file. *)
Definition load_ids (f : file) : result (gset string) :=
  match f with
  | None => Ok ∅
  | Some rows => rows' ← skip_header rows; add_ids ∅ rows'
  end.

(** [v not in existing_ids] for a set of strings: the object is hashed
    (lists and dicts cannot be) and only an equal string is a member. *)
Definition not_in (v : value) (ids : gset string) : result bool :=
  match v with
  | VStr s => Ok (bool_decide (s ∉ ids))
  | VList _ | VDict _ => Raise TypeError
  | _ => Ok true
  end.

(** [writer.writerows(rows)]: the rows reach the file one by one, each as
    one line; the first row that cannot be encoded raises, and the rows
    before it stay written. The rows written and the outcome. *)
Fixpoint writerows (rows : list row) : list row * result unit :=
  match rows with
  | [] => ([], Ok ())
  | r :: rows' =>
      if row_encodable r then
        let w := writerows rows' in (r :: fst w, snd w)
      else ([], Raise UnicodeEncodeError)
  end.

Section Store.

(** [str(v)] for an object that is neither a string nor [None]: the text
    [csv.writer] puts in the field (interpreter code). *)
Variable py_str : value -> string.

Definition csv_field (v : value) : string :=
  match v with
  | VStr s => s
  | VNone => ""
  | _ => py_str v
  end.

Definition csv_row (r : list value) : row := csv_field <$> r.

(** The file after the call, and the count returned or the exception
    raised. An exception raised while the file is read or the batch is
    filtered leaves the file as it was; the file is then opened for
    appending, which creates it, the header is written to a new file, and
    the rows follow as far as they can be encoded. *)
Definition save_to_csv (new_data : list (list value)) (f : file) : file * result Z :=
  match load_ids f with
  | Raise e => (f, Raise e)
  | Ok existing_ids =>
      match filter_result (fun r => v ← getitem r 0; not_in v existing_ids) new_data with
      | Raise e => (f, Raise e)
      | Ok unique_data =>
          let w := writerows (csv_row <$> unique_data) in
          (Some (match f with
                 | None => HEADER :: fst w
                 | Some rows => (rows ++ fst w)%list
                 end),
           _ ← snd w; Ok (Z.of_nat (length unique_data)))
      end
  end.

(** Successive refreshes: the store after appending each batch in turn. *)
Definition appends (batches : list (list (list value))) (f : file) : file :=
  fold_left (fun f' b => fst (save_to_csv b f')) batches f.

End Store.

(** [load_csv]: no file reads as no rows; otherwise the header is skipped
    and the remaining rows are read. *)
Definition load_csv (f : file) : result (list row) :=
  match f with
  | None => Ok []
  | Some rows => rows' ← skip_header rows; map_result read_row rows'
  end.

(** The identifier of a parsed record, when its first field is a string,
    and the identifiers held by the rows of a store. *)
Definition record_id (r : list value) : option string :=
  match r with
  | VStr s :: _ => Some s
  | _ => None
  end.

Definition stored_ids (f : file) : list string := omap head (data_rows f).

(** The rows of a file, none when there is no file. *)
Definition all_rows (f : file) : list row := default [] f.

(** A store that both functions read in full, taking its first row for
    the header: the file is absent or has a first row, every row is
    within the reader's limit, and no row after the first is blank. *)
Definition readable (f : file) : Prop :=
  f <> Some [] /\
  Forall (fun r => within_limit r = true) (all_rows f) /\
  Forall (fun r : row => r <> []) (data_rows f).

(** A record whose identifier is not among [ids]. *)
Definition is_novel (ids : list string) (r : list value) : bool :=
  match record_id r with
  | Some s => bool_decide (s ∉ ids)
  | None => true
  end.

(** A record as the feed parser delivers it when the feed is plain: the
    identifier is a string, and the fields, as written, can be encoded
    and are within the reader's limit. *)
Definition plain_record (py_str : value -> string) (r : list value) : Prop :=
  is_Some (record_id r) /\
  row_encodable (csv_row py_str r) = true /\
  within_limit (csv_row py_str r) = true.

Definition plain_batches (py_str : value -> string)
    (batches : list (list (list value))) : Prop :=
  Forall (Forall (plain_record py_str)) batches.

(** ** Refresh metadata *)

(** What [save_last_updated] meets: the text is written; or
    [open(TIMESTAMP_FILE, 'w')] raises and the file is as it was; or the
    file is opened, which empties it, and the write raises after [kept]
    characters of the text have reached it (none, as a rule). *)
Inductive stamp_outcome : Type :=
  | Written
  | NotOpened
  | Truncated (kept : nat).

(** [save_last_updated]: the timestamp file after the call. *)
Definition save_last_updated (o : stamp_outcome) (now : string) (stamp : option string)
  : option string * result unit :=
  match o with
  | Written => (Some now, Ok ())
  | NotOpened => (stamp, Raise OSError)
  | Truncated kept => (Some (text (take kept (chars now))), Raise OSError)
  end.

Definition load_last_updated (stamp : option string) : string :=
  match stamp with
  | Some s => strip s
  | None => "Never"
  end.

(** ** Refresh orchestration: [run_tracker] *)

Record response : Type := { status_code : Z; content : string }.

(** What one refresh meets outside the program: the outcome of
    [requests.get], the decompressor, the formatted clock, and what
    becomes of the write to the timestamp file. *)
Record env : Type := {
  requests_get : result response;
  gzip_decompress : string -> result string;
  now : string;
  stamp_write : stamp_outcome
}.

(** The timestamp file can be written. *)
Definition stamp_writable (w : env) : bool :=
  match stamp_write w with
  | Written => true
  | _ => false
  end.

Record disk : Type := { store : file; stamp : option string }.

(** The two texts [run_tracker] returns, by their variable part. *)
Inductive message : Type :=
  | Added (new_count : Z)
  | Error (e : exn).

Definition download_feed (w : env) : result string :=
  resp ← requests_get w;
  if status_code resp =? 200 then gzip_decompress w (content resp)
  else Raise (DownloadFailed (status_code resp)).

Section Tracker.

Variable py_str : value -> string.

Definition run_tracker (w : env) (d : disk) : disk * message :=
  match download_feed w with
  | Raise e => (d, Error e)
  | Ok raw =>
      match parse_feed raw with
      | Raise e => (d, Error e)
      | Ok results =>
          match save_to_csv py_str results (store d) with
          | (f', Raise e) => ({| store := f'; stamp := stamp d |}, Error e)
          | (f', Ok new_count) =>
              match save_last_updated (stamp_write w) (now w) (stamp d) with
              | (t', Raise e) => ({| store := f'; stamp := t' |}, Error e)
              | (t', Ok _) => ({| store := f'; stamp := t' |}, Added new_count)
              end
          end
      end
  end.

End Tracker.

(** ** The query engine: the [index] view *)

(** [needle in hay] on strings *)
Fixpoint contains (needle hay : string) : bool :=
  String.prefix needle hay ||
  match hay with
  | String _ hay' => contains needle hay'
  | "" => false
  end.

(** [s[:4]] *)
Definition first4 (s : string) : string := text (take 4 (chars s)).

(** [l[start:stop]] with Python's treatment of negative and oversized
    bounds. *)
Definition py_slice {A} (l : list A) (start stop : Z) : list A :=
  let n := Z.of_nat (length l) in
  let clamp i := if i <? 0 then Z.max 0 (i + n) else Z.min i n in
  take (Z.to_nat (clamp stop - clamp start)) (drop (Z.to_nat (clamp start)) l).

(** *** [list.sort(key=..., reverse=...)]

    The keys are computed first, one call per element. The sort compares
    keys with [<] only and is stable; with [reverse=True] the list is
    reversed before and after sorting, which keeps equal keys in their
    original order. A stable sort has one possible result, so the
    insertion sort below returns the list Python's merge sort returns. *)
Section Sort.

Context {K A : Type}.
Variable lt : K -> K -> result bool.

Fixpoint insert_sorted (x : K * A) (l : list (K * A)) : result (list (K * A)) :=
  match l with
  | [] => Ok [x]
  | y :: l' =>
      before ← lt (fst y) (fst x);
      if before : bool then l'' ← insert_sorted x l'; Ok (y :: l'')
      else Ok (x :: y :: l')
  end.

Fixpoint stable_sort (l : list (K * A)) : result (list (K * A)) :=
  match l with
  | [] => Ok []
  | x :: l' => sorted ← stable_sort l'; insert_sorted x sorted
  end.

Definition list_sort (key : A -> result K) (reverse : bool) (l : list A)
  : result (list A) :=
  keyed ← map_result (fun x => k ← key x; Ok (k, x)) l;
  sorted ←
    (if reverse then s ← stable_sort (list.reverse keyed); Ok (list.reverse s)
     else stable_sort keyed);
  Ok (snd <$> (sorted : list (K * A))).

End Sort.

(** [<] on two bucket values: [None] is not ordered against anything. *)
Definition lt_bucket (a b : option Z) : result bool :=
  match a, b with
  | Some x, Some y => Ok (x <? y)
  | _, _ => Raise TypeError
  end.

Definition lt_str (a b : string) : result bool := Ok (String.ltb a b).

Definition score_key (x : row) : result (option Z) :=
  score ← getitem x 3; Ok (get_score_bucket score).

Definition date_key (x : row) : result string := getitem x 2.

(** The keys by which the two sorts order a row that has the field. *)
Definition date_of (r : row) : string := default "" (r !! 2%nat).
Definition bucket_of (r : row) : option Z := r !! 3%nat ≫= get_score_bucket.

(** The order [lt_bucket] decides on buckets that are integers. *)
Definition ltb_bucket (a b : option Z) : bool :=
  match a, b with
  | Some x, Some y => x <? y
  | _, _ => false
  end.

(** Two rows in key order, for each sort key. *)
Definition date_le (a b : row) : Prop := String.le (date_of a) (date_of b).
Definition bucket_le (a b : row) : Prop :=
  forall x y, bucket_of a = Some x -> bucket_of b = Some y -> x <= y.

(** The order a sorted result follows: the key order, or its converse
    when descending. *)
Definition in_order {A} (le : relation A) (descending : bool) : relation A :=
  if descending then flip le else le.

(** The sort step of [index]. *)
Definition sort_cves (sort_by sort_order : string) (all_cves : list row)
  : result (list row) :=
  if (sort_by =? "score")%string
  then list_sort lt_bucket score_key (sort_order =? "desc")%string all_cves
  else list_sort lt_str date_key (sort_order =? "desc")%string all_cves.

Definition per_page : Z := 100.

(** The pagination step of [index]: the slice and the page count. *)
Definition paginate (all_cves : list row) (page : Z) : list row * Z :=
  let total := Z.of_nat (length all_cves) in
  let start := (page - 1) * per_page in
  (py_slice all_cves start (start + per_page), (total + per_page - 1) / per_page).

(** The query string of the request: each parameter is present or not. *)
Record request_args : Type := {
  arg_q : option string;
  arg_year : option string;
  arg_page : option string;
  arg_sort : option string;
  arg_order : option string
}.

(** [int(request.args.get('page', 1))] *)
Definition page_of (args : request_args) : result Z :=
  match arg_page args with
  | None => Ok 1
  | Some s =>
      match py_int s with
      | Some n => Ok n
      | None => Raise ValueError
      end
  end.

(** The keyword arguments handed to [render_template]. *)
Record view : Type := {
  cves : list row;
  last_updated : string;
  query : string;
  page : Z;
  total_pages : Z;
  sort_by : string;
  sort_order : string;
  year_filter : string
}.

Definition index (args : request_args) (d : disk) : result view :=
  let query := lower (default "" (arg_q args)) in
  let year_filter := default "" (arg_year args) in
  page ← page_of args;
  let sort_by := default "date" (arg_sort args) in
  let sort_order := default "desc" (arg_order args) in
  all_cves ← load_csv (store d);
  let last_updated := load_last_updated (stamp d) in
  all_cves ←
    (if (query =? "")%string then Ok all_cves
     else filter_result
            (fun r => descr ← getitem r 1; Ok (contains query (lower descr)))
            all_cves);
  all_cves ←
    (if (year_filter =? "")%string then Ok all_cves
     else filter_result
            (fun r => published ← getitem r 2;
                      Ok (first4 published =? year_filter)%string)
            all_cves);
  all_cves ← sort_cves sort_by sort_order all_cves;
  let '(paginated_cves, total_pages) := paginate all_cves page in
  Ok {| cves := paginated_cves; last_updated := last_updated; query := query;
        page := page; total_pages := total_pages; sort_by := sort_by;
        sort_order := sort_order; year_filter := year_filter |}.

(** ** Sample documents and rows *)

Definition dq : string := String (byte_of 34) "".
Definition quoted (s : string) : string := dq ++ s ++ dq.

(** [{"CVE_Items": []}] *)
Definition empty_feed : string := "{" ++ quoted "CVE_Items" ++ ": []}".

(** A feed of one entry without an [impact] member. *)
Definition one_entry_feed : string :=
  "{" ++ quoted "CVE_Items" ++ ": [{"
  ++ quoted "cve" ++ ": {"
  ++ quoted "CVE_data_meta" ++ ": {" ++ quoted "ID" ++ ": " ++ quoted "CVE-2023-0001" ++ "}, "
  ++ quoted "description" ++ ": {" ++ quoted "description_data" ++ ": [{"
  ++ quoted "value" ++ ": " ++ quoted "Remote code execution" ++ "}]}}, "
  ++ quoted "publishedDate" ++ ": " ++ quoted "2023-06-01T00:00Z" ++ "}]}".

(** A parsed record with the given identifier. *)
Definition entry (cve_id : string) : list value :=
  [VStr cve_id; VStr "Remote code execution"; VStr "2023-06-01T00:00Z"; VStr "N/A"].

(** A stored row with the given identifier, date and score. *)
Definition stored (cve_id published score : string) : row :=
  [cve_id; "Remote code execution"; published; score].

(** A refresh in which the download and the parse succeed, on one entry,
    and the timestamp file cannot be opened for writing. *)
Definition stale_stamp_env : env := {|
  requests_get := Ok {| status_code := 200; content := "compressed feed" |};
  gzip_decompress := fun c =>
    if (c =? "compressed feed")%string then Ok one_entry_feed else Raise OSError;
  now := "2024-01-01 00:00:00";
  stamp_write := NotOpened
|}.

Definition no_disk : disk := {| store := None; stamp := None |}.

(** A request with only the [page] parameter. *)
Definition page_request (p : string) : request_args := {|
  arg_q := None; arg_year := None; arg_page := Some p;
  arg_sort := None; arg_order := None
|}.

(** The decoded form of a feed entry, with or without an [impact]
    member. *)
Definition entry_value (cve_id : string) (impact : option value) : value :=
  VDict ([("cve", VDict [("CVE_data_meta", VDict [("ID", VStr cve_id)]);
                         ("description",
                          VDict [("description_data",
                                  VList [VDict [("value", VStr "Remote code execution")]])])]);
          ("publishedDate", VStr "2023-06-01T00:00Z")]
         ++ match impact with
            | Some i => [("impact", i)]
            | None => []
            end)%list.

(** A feed whose second entry is the empty object. *)
Definition half_broken_feed : string :=
  "{" ++ quoted "CVE_Items" ++ ": [{"
  ++ quoted "cve" ++ ": {"
  ++ quoted "CVE_data_meta" ++ ": {" ++ quoted "ID" ++ ": " ++ quoted "CVE-2023-0001" ++ "}, "
  ++ quoted "description" ++ ": {" ++ quoted "description_data" ++ ": [{"
  ++ quoted "value" ++ ": " ++ quoted "Remote code execution" ++ "}]}}, "
  ++ quoted "publishedDate" ++ ": " ++ quoted "2023-06-01T00:00Z" ++ "}, {}]}".

(** A refresh in which every stage succeeds, on one entry. *)
Definition fresh_env : env := {|
  requests_get := Ok {| status_code := 200; content := "compressed feed" |};
  gzip_decompress := fun c =>
    if (c =? "compressed feed")%string then Ok one_entry_feed else Raise OSError;
  now := "2024-01-01 00:00:00";
  stamp_write := Written
|}.

(** A refresh that meets a server error. *)
Definition unavailable_env : env := {|
  requests_get := Ok {| status_code := 503; content := "" |};
  gzip_decompress := fun _ => Raise OSError;
  now := "2024-01-01 00:00:00";
  stamp_write := Written
|}.

(** A rendering for batches whose fields are all strings, where [str] is
    never consulted. *)
Definition no_str : value -> string := fun _ => "".

(** The text made of one lone surrogate, U+D800. *)
Definition lone_surrogate : string := text (utf8 55296).

(** A refresh in which every stage succeeds but the last: the timestamp
    file is opened and the write fails with nothing written. *)
Definition truncated_stamp_env : env := {|
  requests_get := Ok {| status_code := 200; content := "compressed feed" |};
  gzip_decompress := fun c =>
    if (c =? "compressed feed")%string then Ok one_entry_feed else Raise OSError;
  now := "2024-01-01 00:00:00";
  stamp_write := Truncated 0
|}.

(** A feed of three entries whose second identifier is the escape of a
    lone surrogate. *)
Definition surrogate_feed : string :=
  "{" ++ quoted "CVE_Items" ++ ": ["
  ++ String.concat ", "
       (map (fun cve_id =>
               "{" ++ quoted "cve" ++ ": {"
               ++ quoted "CVE_data_meta" ++ ": {" ++ quoted "ID" ++ ": " ++ quoted cve_id ++ "}, "
               ++ quoted "description" ++ ": {" ++ quoted "description_data" ++ ": [{"
               ++ quoted "value" ++ ": " ++ quoted "Remote code execution" ++ "}]}}, "
               ++ quoted "publishedDate" ++ ": " ++ quoted "2023-06-01T00:00Z" ++ "}")
            ["A"; "\ud800"; "B"])
  ++ "]}".

(** A refresh that downloads that feed. *)
Definition surrogate_env : env := {|
  requests_get := Ok {| status_code := 200; content := "compressed feed" |};
  gzip_decompress := fun c =>
    if (c =? "compressed feed")%string then Ok surrogate_feed else Raise OSError;
  now := "2024-01-01 00:00:00";
  stamp_write := Written
|}.

(** * Properties *)

(** ** Results *)

Lemma bind_Ok {A B} (f : A -> result B) (a : A) : (Ok a ≫= f) = f a.
Proof. reflexivity. Qed.

Lemma bind_Raise {A B} (f : A -> result B) (e : exn) : (Raise e ≫= f) = Raise e.
Proof. reflexivity. Qed.

(** ** The feed parser *)

Lemma parse_feed_of_dict json_data d :
  json_loads json_data = Ok (VDict d) ->
  parse_feed json_data =
    (items ← iterate (default (VList []) (dict_lookup "CVE_Items" d));
     map_result parse_item items).
Proof. intros H. unfold parse_feed. rewrite H. reflexivity. Qed.

(** C1, as stated, fails: the document [{}] is a JSON object without the
    key ["CVE_Items"], and [parse_feed] returns the empty list for it
    instead of raising. *)
Lemma parse_feed_missing_key_returns :
  json_loads "{}" = Ok (VDict []) /\
  dict_lookup "CVE_Items" [] = None /\
  parse_feed "{}" = Ok [] /\
  raises (parse_feed "{}") = false.
Proof. vm_compute. repeat split. Qed.

(** C1, amended: for every input that decodes to a JSON object, when the
    key ["CVE_Items"] is absent, or present with the empty list,
    [parse_feed] succeeds and returns the empty record sequence. *)
Theorem parse_feed_no_entries (json_data : string) (d : list (string * value)) :
  json_loads json_data = Ok (VDict d) ->
  dict_lookup "CVE_Items" d = None \/ dict_lookup "CVE_Items" d = Some (VList []) ->
  parse_feed json_data = Ok [].
Proof.
  intros Hload Hkey.
  rewrite (parse_feed_of_dict _ _ Hload).
  destruct Hkey as [-> | ->]; reflexivity.
Qed.

Lemma parse_feed_no_entries_witness :
  json_loads empty_feed = Ok (VDict [("CVE_Items", VList [])]) /\
  parse_feed empty_feed = Ok [].
Proof.
  assert (H : json_loads empty_feed = Ok (VDict [("CVE_Items", VList [])]))
    by (vm_compute; reflexivity).
  split; [exact H |].
  apply (parse_feed_no_entries empty_feed _ H).
  right. reflexivity.
Defined.

(** ** Severity buckets *)

Lemma float_of_Z_10 : float_of_Z 10 = S754_finite false 5629499534213120 (-49).
Proof. reflexivity. Qed.

(** Above a positive finite float, hence above every smaller one. *)
Lemma SFleb_false_above (f : spec_float) (m0 mk : positive) (e0 ek : Z) :
  SFltb (S754_finite false m0 e0) f = true ->
  ek < e0 \/ (ek = e0 /\ (mk <= m0)%positive) ->
  SFleb f (S754_finite false mk ek) = false.
Proof.
  unfold SFltb, SFleb. intros Hlt Hk.
  destruct f as [s | s | | s m e]; cbn [SFcompare] in *.
  - discriminate.
  - destruct s; [discriminate | reflexivity].
  - discriminate.
  - destruct s; [discriminate |].
    change (Pos.compare_cont Eq m0 m) with (Pos.compare m0 m) in Hlt.
    change (Pos.compare_cont Eq m mk) with (Pos.compare m mk).
    destruct (Z.compare_spec e0 e) as [He | He | He]; [| | discriminate].
    + destruct (Pos.compare_spec m0 m) as [Hm | Hm | Hm]; try discriminate.
      subst e.
      destruct (Z.compare_spec e0 ek) as [He | He | He]; [| lia | reflexivity].
      destruct (Pos.compare_spec m mk) as [Hm' | Hm' | Hm']; [lia | lia | reflexivity].
    + destruct (Z.compare_spec e ek) as [He' | He' | He']; [lia | lia | reflexivity].
Qed.

(** A float above 10 fails every test of the chain. *)
Lemma float_le_int_bounds (f : spec_float) (k : Z) :
  float_gt_int f 10 = true ->
  k ∈ [2; 3; 4; 5; 6; 7; 8; 9; 10] ->
  float_le_int f k = false.
Proof.
  unfold float_gt_int, float_le_int. rewrite float_of_Z_10. intros Hgt Hk.
  repeat (apply elem_of_cons in Hk as [-> | Hk]);
    [ .. | apply elem_of_nil in Hk; contradiction ];
    match goal with
    | |- SFleb f (float_of_Z ?k) = false =>
        let c := eval vm_compute in (float_of_Z k) in
        change (float_of_Z k) with c
    end;
    (eapply SFleb_false_above; [exact Hgt | lia]).
Qed.

Lemma bucket_above_ten (score : string) (f : spec_float) :
  py_float score = Some f ->
  float_gt_int f 10 = true ->
  get_score_bucket score = None.
Proof.
  intros Hf Hgt. unfold get_score_bucket. rewrite Hf.
  rewrite !(float_le_int_bounds f _ Hgt); [reflexivity | ..];
    repeat first [ apply list_elem_of_here | apply list_elem_of_further ].
Qed.

(** Every bucket the chain returns lies between 0 and 9. *)
Lemma bucket_range (score : string) (n : Z) :
  get_score_bucket score = Some n -> 0 <= n <= 9.
Proof.
  unfold get_score_bucket.
  destruct (py_float score) as [f |]; [| intros [= <-]; lia].
  repeat (destruct (float_le_int f _); [intros [= <-]; lia |]).
  discriminate.
Qed.

(** ** Sorting *)

Lemma map_result_total {A B} (f : A -> result B) (g : A -> B) (l : list A) :
  Forall (fun x => f x = Ok (g x)) l ->
  map_result f l = Ok (g <$> l).
Proof.
  induction 1 as [| x l Hx _ IH]; [reflexivity |].
  cbn [map_result]. rewrite Hx, IH. reflexivity.
Qed.

Lemma map_result_length {A B} (f : A -> result B) (l : list A) (l' : list B) :
  map_result f l = Ok l' -> length l' = length l.
Proof.
  revert l'. induction l as [| x l IH]; intros l'; cbn [map_result].
  - intros [= <-]. reflexivity.
  - destruct (f x) as [y |]; [| discriminate].
    destruct (map_result f l) as [ys |]; [| discriminate].
    intros [= <-]. cbn. f_equal. apply IH. reflexivity.
Qed.

Lemma map_result_elem {A B} (f : A -> result B) (l : list A) (l' : list B) (x : A) :
  map_result f l = Ok l' -> x ∈ l -> exists y, f x = Ok y /\ y ∈ l'.
Proof.
  revert l'. induction l as [| a l IH]; intros l' Hm Hx.
  - apply elem_of_nil in Hx. contradiction.
  - cbn [map_result] in Hm.
    destruct (f a) as [y |] eqn:Hy; [| discriminate].
    destruct (map_result f l) as [ys |]; [| discriminate].
    injection Hm as <-.
    apply elem_of_cons in Hx as [-> | Hx].
    + exists y. split; [exact Hy | apply list_elem_of_here].
    + destruct (IH ys eq_refl Hx) as (z & Hz & Hin).
      exists z. split; [exact Hz | apply list_elem_of_further, Hin].
Qed.

(** The stable insertion sort, when the comparison [lt] is a strict weak
    order [ltb] on the keys that satisfy [P]. *)
Section SortTheory.

Context {K A : Type} `{EqDecision K}.
Variable lt : K -> K -> result bool.
Variable ltb : K -> K -> bool.
Variable P : K -> Prop.

Hypothesis lt_ltb : forall a b, P a -> P b -> lt a b = Ok (ltb a b).
Hypothesis ltb_irrefl : forall a, P a -> ltb a a = false.
Hypothesis ltb_asym : forall a b, P a -> P b -> ltb a b = true -> ltb b a = false.
Hypothesis ltb_negtrans : forall a b c, P a -> P b -> P c ->
  ltb b a = false -> ltb c b = false -> ltb c a = false.

(** [x] may stand before [y]: the key of [y] is not below that of [x]. *)
Local Abbreviation key_le := (fun x y : K * A => ltb (fst y) (fst x) = false).
Local Abbreviation keys_ok := (Forall (fun y : K * A => P (fst y))).
Local Abbreviation with_key k := (filter (fun y : K * A => fst y = k)).

Lemma insert_sorted_spec (x : K * A) (l : list (K * A)) :
  P (fst x) -> keys_ok l -> StronglySorted key_le l ->
  exists s, insert_sorted lt x l = Ok s /\ s ≡ₚ x :: l /\
            StronglySorted key_le s /\
            forall k, with_key k s = with_key k (x :: l).
Proof.
  intros Px. induction l as [| y l IH]; intros Hl Hs.
  - exists [x]. repeat split; [reflexivity | repeat constructor].
  - apply Forall_cons in Hl as [Py Hl].
    apply StronglySorted_cons in Hs as [Hy Hs].
    cbn [insert_sorted]. rewrite (lt_ltb _ _ Py Px). cbn.
    destruct (ltb (fst y) (fst x)) eqn:Hyx.
    + destruct (IH Hl Hs) as (s & -> & Hperm & Hsort & Hfilter). cbn.
      exists (y :: s). split; [reflexivity |]. split; [| split].
      * rewrite Hperm. apply perm_swap.
      * apply StronglySorted_cons. split; [| exact Hsort].
        rewrite Hperm. apply Forall_cons. split; [| exact Hy].
        apply ltb_asym; assumption.
      * intros k. rewrite !filter_cons, Hfilter, filter_cons.
        destruct (decide (fst y = k)) as [Hk | Hk];
          destruct (decide (fst x = k)) as [Hk' | Hk']; try reflexivity.
        exfalso. rewrite Hk, <- Hk' in Hyx.
        rewrite ltb_irrefl in Hyx by exact Px. discriminate.
    + exists (x :: y :: l). repeat split; [reflexivity | ].
      apply StronglySorted_cons. split.
      * apply Forall_cons. split; [exact Hyx |].
        rewrite Forall_forall in Hy, Hl |- *. intros z Hz.
        apply (ltb_negtrans (fst x) (fst y) (fst z)); auto.
      * apply StronglySorted_cons. split; assumption.
Qed.

Lemma stable_sort_spec (l : list (K * A)) :
  keys_ok l ->
  exists s, stable_sort lt l = Ok s /\ s ≡ₚ l /\
            StronglySorted key_le s /\
            forall k, with_key k s = with_key k l.
Proof.
  induction l as [| x l IH]; intros Hl.
  - exists []. repeat split; [reflexivity | constructor].
  - apply Forall_cons in Hl as [Px Hl].
    destruct (IH Hl) as (s' & Hs' & Hperm & Hsort & Hfilter).
    cbn [stable_sort]. rewrite Hs'. cbn.
    assert (Hk : keys_ok s') by (rewrite Hperm; exact Hl).
    destruct (insert_sorted_spec x s' Px Hk Hsort) as (s & Hs & Hp & Hso & Hf).
    exists s. split; [exact Hs |]. split; [| split].
    + rewrite Hp, Hperm. reflexivity.
    + exact Hso.
    + intros k. rewrite Hf, !filter_cons, Hfilter. reflexivity.
Qed.

End SortTheory.

Lemma StronglySorted_reverse {A} (R : relation A) (l : list A) :
  StronglySorted R l -> StronglySorted (flip R) (reverse l).
Proof.
  induction 1 as [| x l _ IH Hx]; [rewrite reverse_nil; constructor |].
  rewrite reverse_cons. apply StronglySorted_app_2.
  - intros x1 x2 H1 H2. rewrite elem_of_reverse in H1.
    apply list_elem_of_singleton in H2 as ->.
    rewrite Forall_forall in Hx. apply Hx, H1.
  - exact IH.
  - repeat constructor.
Qed.

Lemma StronglySorted_of_fmap {A B} (f : A -> B) (R : relation B) (l : list A) :
  StronglySorted R (f <$> l) -> StronglySorted (fun x y => R (f x) (f y)) l.
Proof.
  induction l as [| x l IH]; [constructor |].
  rewrite fmap_cons. intros [Hx Hl]%StronglySorted_cons.
  constructor; [apply IH, Hl |].
  rewrite Forall_fmap in Hx. exact Hx.
Qed.

Lemma filter_fmap_key {A B} (f : A -> B) (P : B -> Prop)
    `{forall y, Decision (P y)} (l : list A) :
  filter P (f <$> l) = f <$> filter (fun x => P (f x)) l.
Proof.
  induction l as [| x l IH]; [reflexivity |].
  rewrite fmap_cons, !filter_cons, IH.
  destruct (decide (P (f x))); reflexivity.
Qed.

Lemma fmap_snd_keyed {K A} (keyf : A -> K) (l : list A) :
  snd <$> ((fun x => (keyf x, x)) <$> l) = l.
Proof.
  rewrite <- list_fmap_compose. induction l as [| x l IH]; [reflexivity |].
  rewrite fmap_cons, IH. reflexivity.
Qed.

Lemma keyed_recover {K A} (keyf : A -> K) (s : list (K * A)) :
  Forall (fun y => fst y = keyf (snd y)) s ->
  s = (fun x => (keyf x, x)) <$> (snd <$> s).
Proof.
  induction 1 as [| [k x] s Hy _ IH]; [reflexivity |].
  cbn in Hy. subst k. rewrite !fmap_cons, <- IH. reflexivity.
Qed.

(** [list.sort] when every key is computed and ordered: the result is a
    stable rearrangement, ascending by [ltb] or, reversed, descending. *)
Section ListSortTheory.

Context {K A : Type} `{EqDecision K}.
Variable lt : K -> K -> result bool.
Variable ltb : K -> K -> bool.
Variable P : K -> Prop.
Variable key : A -> result K.
Variable keyf : A -> K.

Hypothesis lt_ltb : forall a b, P a -> P b -> lt a b = Ok (ltb a b).
Hypothesis ltb_irrefl : forall a, P a -> ltb a a = false.
Hypothesis ltb_asym : forall a b, P a -> P b -> ltb a b = true -> ltb b a = false.
Hypothesis ltb_negtrans : forall a b c, P a -> P b -> P c ->
  ltb b a = false -> ltb c b = false -> ltb c a = false.

Lemma list_sort_spec (descending : bool) (l : list A) :
  Forall (fun x => key x = Ok (keyf x) /\ P (keyf x)) l ->
  exists out, list_sort lt key descending l = Ok out /\ out ≡ₚ l /\
    (forall k, filter (fun x => keyf x = k) out = filter (fun x => keyf x = k) l) /\
    StronglySorted
      (fun a b => if descending then ltb (keyf a) (keyf b) = false
                  else ltb (keyf b) (keyf a) = false) out.
Proof.
  intros Hl. unfold list_sort.
  set (pair := fun x => (keyf x, x)).
  assert (Hsnd : forall l', snd <$> (pair <$> l') = l')
    by exact (fmap_snd_keyed keyf).
  rewrite (map_result_total _ pair).
  2:{ eapply Forall_impl; [exact Hl |]. intros x [-> _]. reflexivity. }
  cbn.
  assert (Hkeys : Forall (fun y : K * A => P (fst y)) (pair <$> l)).
  { rewrite Forall_fmap. eapply Forall_impl; [exact Hl |]. intros x [_ Hx]. exact Hx. }
  assert (Hcons : Forall (fun y : K * A => fst y = keyf (snd y)) (pair <$> l)).
  { rewrite Forall_fmap. apply Forall_true. reflexivity. }
  assert (Hgen : forall input, input ≡ₚ pair <$> l ->
    exists s out, stable_sort lt input = Ok s /\ s = pair <$> out /\ out ≡ₚ l /\
      (forall k, filter (fun x => keyf x = k) out
                 = snd <$> filter (fun y : K * A => fst y = k) input) /\
      StronglySorted (fun a b => ltb (keyf b) (keyf a) = false) out).
  { intros input Hin.
    destruct (stable_sort_spec lt ltb P lt_ltb ltb_irrefl ltb_asym ltb_negtrans input)
      as (s & Hs & Hperm & Hsort & Hfilter).
    { rewrite Hin. exact Hkeys. }
    assert (Hrec : s = pair <$> (snd <$> s)).
    { apply keyed_recover. rewrite Hperm, Hin. exact Hcons. }
    exists s, (snd <$> s). split; [exact Hs |]. split; [exact Hrec |].
    split; [| split].
    - rewrite Hperm, Hin. rewrite Hsnd. reflexivity.
    - intros k. rewrite <- Hfilter. rewrite Hrec at 2.
      rewrite (filter_fmap_key pair (fun y : K * A => fst y = k)).
      rewrite Hsnd. reflexivity.
    - rewrite Hrec in Hsort. apply StronglySorted_of_fmap in Hsort. exact Hsort. }
  destruct descending.
  - destruct (Hgen (reverse (pair <$> l))) as (s & out & Hs & -> & Hperm & Hfilter & Hsort).
    { apply reverse_Permutation. }
    rewrite Hs. cbn. exists (reverse out).
    split; [rewrite <- fmap_reverse, Hsnd; reflexivity |].
    split; [rewrite reverse_Permutation; exact Hperm |]. split.
    + intros k. rewrite filter_reverse, Hfilter, filter_reverse, fmap_reverse.
      rewrite reverse_involutive.
      rewrite (filter_fmap_key pair (fun y : K * A => fst y = k)).
      rewrite Hsnd. reflexivity.
    + apply StronglySorted_reverse in Hsort. exact Hsort.
  - destruct (Hgen (pair <$> l)) as (s & out & Hs & -> & Hperm & Hfilter & Hsort);
      [reflexivity |].
    rewrite Hs. cbn. exists out.
    split; [rewrite Hsnd; reflexivity |].
    split; [exact Hperm |]. split; [| exact Hsort].
    intros k. rewrite Hfilter.
    rewrite (filter_fmap_key pair (fun y : K * A => fst y = k)).
    rewrite Hsnd. reflexivity.
Qed.

End ListSortTheory.

Lemma StronglySorted_impl {A} (R1 R2 : relation A) (l : list A) :
  (forall x y, R1 x y -> R2 x y) -> StronglySorted R1 l -> StronglySorted R2 l.
Proof.
  intros HR. induction 1 as [| x l _ IH Hx]; constructor; [exact IH |].
  eapply Forall_impl; [exact Hx | apply HR].
Qed.

(** *** The two sort keys *)

Lemma ltb_false_le (a b : string) : String.ltb b a = false <-> String.le a b.
Proof.
  unfold String.le, String.leb, String.ltb.
  rewrite (String.compare_antisym a b).
  destruct (String.compare b a); cbn; intuition (try discriminate; auto).
Qed.

Lemma string_ltb_irrefl (a : string) : String.ltb a a = false.
Proof. apply ltb_false_le. reflexivity. Qed.

Lemma string_ltb_asym (a b : string) : String.ltb a b = true -> String.ltb b a = false.
Proof.
  unfold String.ltb. rewrite (String.compare_antisym a b).
  destruct (String.compare b a); cbn; intros; (discriminate || reflexivity).
Qed.

Lemma string_ltb_negtrans (a b c : string) :
  String.ltb b a = false -> String.ltb c b = false -> String.ltb c a = false.
Proof. rewrite !ltb_false_le. intros Hab Hbc. etrans; eassumption. Qed.

Lemma date_key_total (r : row) : is_Some (r !! 2%nat) -> date_key r = Ok (date_of r).
Proof. intros [d Hd]. unfold date_key, date_of, getitem. rewrite Hd. reflexivity. Qed.

Lemma score_key_total (r : row) : is_Some (r !! 3%nat) -> score_key r = Ok (bucket_of r).
Proof. intros [sc Hsc]. unfold score_key, bucket_of, getitem. rewrite Hsc. reflexivity. Qed.

Lemma bucket_of_Some_field (r : row) : is_Some (bucket_of r) -> is_Some (r !! 3%nat).
Proof. unfold bucket_of. destruct (r !! 3%nat); [eauto | intros [? [=]]]. Qed.

(** Sorting by date succeeds on rows that have the date field, and the
    result is a stable rearrangement in date order. *)
Lemma sort_cves_date_spec (sort_by sort_order : string) (rows : list row) :
  sort_by <> "score" ->
  Forall (fun r => is_Some (r !! 2%nat)) rows ->
  exists out, sort_cves sort_by sort_order rows = Ok out /\ out ≡ₚ rows /\
    (forall k, filter (fun r => date_of r = k) out = filter (fun r => date_of r = k) rows) /\
    StronglySorted (in_order date_le (sort_order =? "desc")%string) out.
Proof.
  intros Hby Hrows. unfold sort_cves.
  apply String.eqb_neq in Hby. rewrite Hby.
  destruct (list_sort_spec lt_str String.ltb (fun _ => True) date_key date_of
              (fun a b _ _ => eq_refl)
              (fun a _ => string_ltb_irrefl a)
              (fun a b _ _ => string_ltb_asym a b)
              (fun a b c _ _ _ => string_ltb_negtrans a b c)
              (sort_order =? "desc")%string rows)
    as (out & Hout & Hperm & Hstable & Hsorted).
  { eapply Forall_impl; [exact Hrows |]. intros r Hr.
    split; [apply date_key_total, Hr | exact I]. }
  exists out. repeat split; try assumption.
  eapply StronglySorted_impl; [| exact Hsorted].
  intros a b. unfold in_order, flip, date_le.
  destruct (sort_order =? "desc")%string; apply ltb_false_le.
Qed.

(** Sorting by score succeeds on rows whose score has a bucket, and the
    result is a stable rearrangement in bucket order. *)
Lemma sort_cves_score_spec (sort_order : string) (rows : list row) :
  Forall (fun r => is_Some (bucket_of r)) rows ->
  exists out, sort_cves "score" sort_order rows = Ok out /\ out ≡ₚ rows /\
    (forall k, filter (fun r => bucket_of r = k) out = filter (fun r => bucket_of r = k) rows) /\
    StronglySorted (in_order bucket_le (sort_order =? "desc")%string) out.
Proof.
  intros Hrows. unfold sort_cves. cbn [String.eqb Ascii.eqb Bool.eqb].
  destruct (list_sort_spec lt_bucket ltb_bucket is_Some score_key bucket_of)
    with (descending := (sort_order =? "desc")%string) (l := rows)
    as (out & Hout & Hperm & Hstable & Hsorted).
  - intros a b [x ->] [y ->]. reflexivity.
  - intros a [x ->]. cbn. apply Z.ltb_irrefl.
  - intros a b [x ->] [y ->]. cbn. rewrite Z.ltb_lt, Z.ltb_ge. lia.
  - intros a b c [x ->] [y ->] [z ->]. cbn. rewrite !Z.ltb_ge. lia.
  - eapply Forall_impl; [exact Hrows |]. intros r Hr.
    split; [apply score_key_total, bucket_of_Some_field, Hr | exact Hr].
  - exists out. repeat split; try assumption.
    eapply StronglySorted_impl; [| exact Hsorted].
    intros a b. unfold in_order, flip, bucket_le.
    destruct (sort_order =? "desc")%string; intros H x y Hx Hy;
      rewrite Hx, Hy in H; cbn in H; apply Z.ltb_ge in H; lia.
Qed.

Lemma StronglySorted_lookup {A} (R : relation A) (l : list A) (i j : nat) (a b : A) :
  StronglySorted R l -> l !! i = Some a -> l !! j = Some b -> (i < j)%nat -> R a b.
Proof.
  intros Hs. revert i j. induction Hs as [| x l _ IH Hx]; intros i j Hi Hj Hlt.
  - discriminate.
  - destruct j as [| j]; [lia |]. destruct i as [| i].
    + injection Hi as ->. rewrite Forall_forall in Hx.
      apply Hx. eapply list_elem_of_lookup_2. exact Hj.
    + apply (IH i j); [exact Hi | exact Hj | lia].
Qed.

(** *** Keys that cannot be compared *)

Lemma insert_sorted_length {K A} (lt : K -> K -> result bool)
    (x : K * A) (l s : list (K * A)) :
  insert_sorted lt x l = Ok s -> length s = S (length l).
Proof.
  revert s. induction l as [| y l IH]; intros s; cbn [insert_sorted].
  - intros [= <-]. reflexivity.
  - destruct (lt (fst y) (fst x)) as [[] |]; cbn; [| | discriminate].
    + destruct (insert_sorted lt x l) as [s' |]; cbn; [| discriminate].
      intros [= <-]. cbn. f_equal. apply IH. reflexivity.
    + intros [= <-]. reflexivity.
Qed.

Lemma stable_sort_length {K A} (lt : K -> K -> result bool) (l s : list (K * A)) :
  stable_sort lt l = Ok s -> length s = length l.
Proof.
  revert s. induction l as [| x l IH]; intros s; cbn [stable_sort].
  - intros [= <-]. reflexivity.
  - destruct (stable_sort lt l) as [s' |]; cbn; [| discriminate].
    intros Hs%insert_sorted_length. rewrite Hs. f_equal. apply IH. reflexivity.
Qed.

Lemma insert_bucket_Ok {A} (x y : option Z * A) (l s : list (option Z * A)) :
  insert_sorted lt_bucket x (y :: l) = Ok s -> is_Some (fst x) /\ is_Some (fst y).
Proof.
  cbn [insert_sorted]. destruct (fst y), (fst x); cbn; try discriminate. eauto.
Qed.

(** A sort of two or more elements that returns has compared every key:
    none of them is [None]. *)
Lemma stable_sort_bucket_Ok {A} (l s : list (option Z * A)) :
  stable_sort lt_bucket l = Ok s -> (2 <= length l)%nat ->
  Forall (fun y => is_Some (fst y)) l.
Proof.
  revert s. induction l as [| x l IH]; intros s Hs Hlen; [constructor |].
  cbn [stable_sort] in Hs.
  destruct (stable_sort lt_bucket l) as [s' |] eqn:Hs'; cbn in Hs; [| discriminate].
  pose proof (stable_sort_length _ _ _ Hs') as Hlen'.
  destruct s' as [| y s'']; [cbn in Hlen, Hlen'; lia |].
  destruct (insert_bucket_Ok _ _ _ _ Hs) as [Hx Hy].
  constructor; [exact Hx |].
  destruct l as [| z [| z' l']].
  - constructor.
  - cbn in Hs'. injection Hs' as <- <-. repeat constructor. exact Hy.
  - apply (IH (y :: s'')); [reflexivity | cbn; lia].
Qed.

Lemma two_elements {A} (l : list A) (x y : A) :
  x ∈ l -> y ∈ l -> x <> y -> (2 <= length l)%nat.
Proof.
  destruct l as [| a [| b l]]; cbn; intros Hx Hy Hne; [| | lia].
  - apply elem_of_nil in Hx. contradiction.
  - apply list_elem_of_singleton in Hx, Hy. congruence.
Qed.

(** Sorting by score raises as soon as the rows hold a score without a
    bucket next to one with a bucket. *)
Lemma sort_cves_score_raises (sort_order : string) (rows : list row)
    (r1 r2 : row) (s1 : string) (n : Z) :
  r1 ∈ rows -> r2 ∈ rows ->
  r1 !! 3%nat = Some s1 -> get_score_bucket s1 = None ->
  bucket_of r2 = Some n ->
  raises (sort_cves "score" sort_order rows) = true.
Proof.
  intros H1 H2 Hs1 Hb1 Hb2. unfold sort_cves. cbn [String.eqb Ascii.eqb Bool.eqb].
  unfold list_sort.
  destruct (map_result _ rows) as [keyed |] eqn:Hkeyed; [| reflexivity].
  destruct (map_result_elem _ _ _ r1 Hkeyed H1) as (k1 & Hk1 & Hin1).
  destruct (map_result_elem _ _ _ r2 Hkeyed H2) as (k2 & Hk2 & Hin2).
  unfold score_key, getitem in Hk1, Hk2. rewrite Hs1 in Hk1. cbn in Hk1.
  rewrite Hb1 in Hk1. injection Hk1 as <-.
  unfold bucket_of in Hb2.
  destruct (r2 !! 3%nat) as [s2 |]; [| discriminate]. cbn in Hb2, Hk2.
  rewrite Hb2 in Hk2. injection Hk2 as <-.
  assert (Hlen : (2 <= length keyed)%nat)
    by (eapply two_elements; [exact Hin1 | exact Hin2 | discriminate]).
  assert (Hno : forall input, (None, r1) ∈ input -> (2 <= length input)%nat ->
                              raises (stable_sort lt_bucket input) = true).
  { intros input Hin Hl.
    destruct (stable_sort lt_bucket input) as [s |] eqn:Hs; [| reflexivity].
    pose proof (stable_sort_bucket_Ok _ _ Hs Hl) as Hall.
    rewrite Forall_forall in Hall. destruct (Hall _ Hin) as [? [=]]. }
  cbn. destruct (sort_order =? "desc")%string.
  - specialize (Hno (reverse keyed)).
    destruct (stable_sort lt_bucket (reverse keyed)); [| reflexivity].
    apply Hno; [apply elem_of_reverse, Hin1 | rewrite length_reverse; exact Hlen].
  - specialize (Hno keyed Hin1 Hlen).
    destruct (stable_sort lt_bucket keyed); [| reflexivity].
    exact Hno.
Qed.

(** ** Claims on severity buckets and sorting *)

(** C2, as stated, fails: the score 8.9 is above 8 and at most 9, so it
    falls in bucket 7, not in bucket 6. *)
Lemma bucket_of_8_9_is_not_6 :
  get_score_bucket "8.9" = Some 7 /\ get_score_bucket "8.9" <> Some 6.
Proof. split; [vm_compute; reflexivity | vm_compute; discriminate]. Qed.

(** C2, amended: the bounds 2, 3, ..., 10 of [get_score_bucket] are
    inclusive upper bounds. A score in bucket [k - 2] is at most [k] and
    above [k - 1]; a score equal to the bound [k] is in bucket [k - 2];
    the score 8.9 maps to bucket 7, the score 9.0 to bucket 7, and an
    unparseable score such as "N/A" to bucket 9. *)
Theorem bucket_bounds_inclusive (score : string) (f : spec_float) (k : Z) :
  py_float score = Some f ->
  2 <= k <= 10 ->
  (get_score_bucket score = Some (k - 2) ->
     float_le_int f k = true /\ (2 < k -> float_le_int f (k - 1) = false)) /\
  (f = float_of_Z k -> get_score_bucket score = Some (k - 2)) /\
  get_score_bucket "8.9" = Some 7 /\
  get_score_bucket "9.0" = Some 7 /\
  (forall s, py_float s = None -> get_score_bucket s = Some 9) /\
  get_score_bucket "N/A" = Some 9.
Proof.
  intros Hf Hk. unfold get_score_bucket at 1 2. rewrite Hf.
  split; [| split].
  - destruct (float_le_int f 2) eqn:H2; [intros [= ?]; assert (k = 2) as -> by lia; split; [exact H2 | lia] |].
    destruct (float_le_int f 3) eqn:H3; [intros [= ?]; assert (k = 3) as -> by lia; split; [exact H3 | intros _; exact H2] |].
    destruct (float_le_int f 4) eqn:H4; [intros [= ?]; assert (k = 4) as -> by lia; split; [exact H4 | intros _; exact H3] |].
    destruct (float_le_int f 5) eqn:H5; [intros [= ?]; assert (k = 5) as -> by lia; split; [exact H5 | intros _; exact H4] |].
    destruct (float_le_int f 6) eqn:H6; [intros [= ?]; assert (k = 6) as -> by lia; split; [exact H6 | intros _; exact H5] |].
    destruct (float_le_int f 7) eqn:H7; [intros [= ?]; assert (k = 7) as -> by lia; split; [exact H7 | intros _; exact H6] |].
    destruct (float_le_int f 8) eqn:H8; [intros [= ?]; assert (k = 8) as -> by lia; split; [exact H8 | intros _; exact H7] |].
    destruct (float_le_int f 9) eqn:H9; [intros [= ?]; assert (k = 9) as -> by lia; split; [exact H9 | intros _; exact H8] |].
    destruct (float_le_int f 10) eqn:H10; [intros [= ?]; assert (k = 10) as -> by lia; split; [exact H10 | intros _; exact H9] |].
    discriminate.
  - intros ->.
    assert (Hcases : k = 2 \/ k = 3 \/ k = 4 \/ k = 5 \/ k = 6 \/ k = 7 \/
                     k = 8 \/ k = 9 \/ k = 10) by lia.
    repeat (destruct Hcases as [-> | Hcases]; [vm_compute; reflexivity |]).
    subst k. vm_compute. reflexivity.
  - split; [vm_compute; reflexivity |].
    split; [vm_compute; reflexivity |].
    split; [| vm_compute; reflexivity].
    intros s Hs. unfold get_score_bucket. rewrite Hs. reflexivity.
Qed.

Lemma bucket_bounds_inclusive_witness :
  float_le_int (float_of_Z 9) 9 = true /\
  float_le_int (float_of_Z 9) 8 = false /\
  get_score_bucket "9.0" = Some 7.
Proof.
  assert (Hf : py_float "9.0" = Some (float_of_Z 9)) by (vm_compute; reflexivity).
  assert (Hk : 2 <= 9 <= 10) by lia.
  destruct (bucket_bounds_inclusive "9.0" (float_of_Z 9) 9 Hf Hk)
    as (Hbounds & Hexact & _).
  pose proof (Hexact eq_refl) as Hb.
  destruct (Hbounds Hb) as [Hle Hgt].
  split; [exact Hle |]. split; [apply Hgt; lia | exact Hb].
Defined.

(** C10: a score string that parses to a float above 10 passes every
    branch of [get_score_bucket], which then returns [None]; sorting by
    score a list that holds such a row together with a bucketed one raises;
    unparseable scores and scores at most 10 do get a bucket. *)
Theorem bucket_missing_above_ten (score : string) (f : spec_float) :
  py_float score = Some f ->
  float_gt_int f 10 = true ->
  get_score_bucket score = None /\
  (forall sort_order rows r1 r2 n,
     r1 ∈ rows -> r2 ∈ rows ->
     r1 !! 3%nat = Some score -> bucket_of r2 = Some n ->
     raises (sort_cves "score" sort_order rows) = true) /\
  (forall s, py_float s = None -> get_score_bucket s = Some 9) /\
  (forall s g, py_float s = Some g -> float_le_int g 10 = true ->
     is_Some (get_score_bucket s)).
Proof.
  intros Hf Hgt.
  pose proof (bucket_above_ten score f Hf Hgt) as Hnone.
  split; [exact Hnone |]. split; [| split].
  - intros sort_order rows r1 r2 n H1 H2 Hs1 Hb2.
    exact (sort_cves_score_raises sort_order rows r1 r2 score n H1 H2 Hs1 Hnone Hb2).
  - intros s Hs. unfold get_score_bucket. rewrite Hs. reflexivity.
  - intros s g Hs Hle. unfold get_score_bucket. rewrite Hs.
    destruct (float_le_int g 2); [exists 0; reflexivity |].
    destruct (float_le_int g 3); [exists 1; reflexivity |].
    destruct (float_le_int g 4); [exists 2; reflexivity |].
    destruct (float_le_int g 5); [exists 3; reflexivity |].
    destruct (float_le_int g 6); [exists 4; reflexivity |].
    destruct (float_le_int g 7); [exists 5; reflexivity |].
    destruct (float_le_int g 8); [exists 6; reflexivity |].
    destruct (float_le_int g 9); [exists 7; reflexivity |].
    rewrite Hle. exists 8. reflexivity.
Qed.

Lemma bucket_missing_above_ten_witness :
  get_score_bucket "10.1" = None /\
  raises (sort_cves "score" "desc"
            [stored "CVE-1" "2023-06-01" "10.1"; stored "CVE-2" "2023-06-02" "5.0"]) = true.
Proof.
  assert (Hf : py_float "10.1" = Some (S754_finite false 5685794529555251 (-49)))
    by (vm_compute; reflexivity).
  assert (Hgt : float_gt_int (S754_finite false 5685794529555251 (-49)) 10 = true)
    by (vm_compute; reflexivity).
  destruct (bucket_missing_above_ten "10.1" _ Hf Hgt) as (Hnone & Hsort & _).
  split; [exact Hnone |].
  apply (Hsort "desc" _ (stored "CVE-1" "2023-06-01" "10.1")
           (stored "CVE-2" "2023-06-02" "5.0") 3).
  - apply list_elem_of_here.
  - apply list_elem_of_further, list_elem_of_here.
  - reflexivity.
  - vm_compute. reflexivity.
Defined.

Lemma bucket_of_range (r : row) (n : Z) : bucket_of r = Some n -> 0 <= n <= 9.
Proof.
  unfold bucket_of. destruct (r !! 3%nat) as [score |]; [| discriminate].
  apply bucket_range.
Qed.

(** C5, as stated, fails: with a score of 5.0 (bucket 3) and an
    unparseable score (bucket 9), descending order puts the bucket-9 row
    first, and ascending order puts it last. *)
Lemma unknown_bucket_sorts_first_descending :
  bucket_of (stored "CVE-1" "2023-06-01" "5.0") = Some 3 /\
  bucket_of (stored "CVE-2" "2023-06-02" "N/A") = Some 9 /\
  sort_cves "score" "desc"
    [stored "CVE-1" "2023-06-01" "5.0"; stored "CVE-2" "2023-06-02" "N/A"]
  = Ok [stored "CVE-2" "2023-06-02" "N/A"; stored "CVE-1" "2023-06-01" "5.0"] /\
  sort_cves "score" "asc"
    [stored "CVE-2" "2023-06-02" "N/A"; stored "CVE-1" "2023-06-01" "5.0"]
  = Ok [stored "CVE-1" "2023-06-01" "5.0"; stored "CVE-2" "2023-06-02" "N/A"].
Proof. vm_compute. repeat split. Qed.

(** C5, amended: when sorting by score, rows whose score is unparseable
    are ordered by their bucket value 9 under the same numeric comparison
    as the other buckets, with no special case; 9 being the largest
    bucket, descending direction places the bucket-9 rows first and
    ascending direction places them last. *)
Theorem unknown_bucket_sorted_by_value (sort_order : string) (rows : list row) :
  Forall (fun r => is_Some (bucket_of r)) rows ->
  exists out, sort_cves "score" sort_order rows = Ok out /\ out ≡ₚ rows /\
    StronglySorted (in_order bucket_le (sort_order =? "desc")%string) out /\
    forall i j a b, out !! i = Some a -> out !! j = Some b -> (i < j)%nat ->
      if (sort_order =? "desc")%string
      then bucket_of b = Some 9 -> bucket_of a = Some 9
      else bucket_of a = Some 9 -> bucket_of b = Some 9.
Proof.
  intros Hrows.
  destruct (sort_cves_score_spec sort_order rows Hrows)
    as (out & Hout & Hperm & _ & Hsorted).
  exists out. split; [exact Hout |]. split; [exact Hperm |]. split; [exact Hsorted |].
  intros i j a b Ha Hb Hij.
  pose proof (StronglySorted_lookup _ _ _ _ _ _ Hsorted Ha Hb Hij) as Hab.
  assert (Hall : Forall (fun r => is_Some (bucket_of r)) out)
    by (rewrite Hperm; exact Hrows).
  rewrite Forall_forall in Hall.
  destruct (Hall a (list_elem_of_lookup_2 _ _ _ Ha)) as [x Hx].
  destruct (Hall b (list_elem_of_lookup_2 _ _ _ Hb)) as [y Hy].
  pose proof (bucket_of_range _ _ Hx). pose proof (bucket_of_range _ _ Hy).
  unfold in_order, flip, bucket_le in Hab.
  destruct (sort_order =? "desc")%string; intros H9.
  - rewrite H9 in Hy. injection Hy as <-.
    specialize (Hab _ _ H9 Hx). rewrite Hx. f_equal. lia.
  - rewrite H9 in Hx. injection Hx as <-.
    specialize (Hab _ _ H9 Hy). rewrite Hy. f_equal. lia.
Qed.

Lemma unknown_bucket_sorted_by_value_witness :
  exists out,
    sort_cves "score" "desc"
      [stored "CVE-1" "2023-06-01" "5.0"; stored "CVE-2" "2023-06-02" "N/A"] = Ok out /\
    out ≡ₚ [stored "CVE-1" "2023-06-01" "5.0"; stored "CVE-2" "2023-06-02" "N/A"].
Proof.
  destruct (unknown_bucket_sorted_by_value "desc"
              [stored "CVE-1" "2023-06-01" "5.0"; stored "CVE-2" "2023-06-02" "N/A"])
    as (out & Hout & Hperm & _).
  - repeat constructor; vm_compute; eexists; reflexivity.
  - exists out. split; [exact Hout | exact Hperm].
Defined.

(** C9: sorting is a function of its input and is stable in both
    directions. For either sort key, on rows that have the key, the sort
    returns a rearrangement of its input in which the rows with any given
    key keep their input order, ascending as well as descending, and the
    descending order is the converse of the ascending key comparison. *)
Theorem sort_stable_both_directions (sort_by sort_order : string) (rows : list row) :
  (sort_by <> "score" ->
   Forall (fun r => is_Some (r !! 2%nat)) rows ->
   exists out, sort_cves sort_by sort_order rows = Ok out /\ out ≡ₚ rows /\
     (forall k, filter (fun r => date_of r = k) out
                = filter (fun r => date_of r = k) rows) /\
     StronglySorted (in_order date_le (sort_order =? "desc")%string) out) /\
  (sort_by = "score" ->
   Forall (fun r => is_Some (bucket_of r)) rows ->
   exists out, sort_cves sort_by sort_order rows = Ok out /\ out ≡ₚ rows /\
     (forall k, filter (fun r => bucket_of r = k) out
                = filter (fun r => bucket_of r = k) rows) /\
     StronglySorted (in_order bucket_le (sort_order =? "desc")%string) out) /\
  (forall A (le : relation A) a b, in_order le true a b <-> in_order le false b a).
Proof.
  split; [| split].
  - apply sort_cves_date_spec.
  - intros ->. apply sort_cves_score_spec.
  - intros A le a b. reflexivity.
Qed.

Lemma sort_stable_both_directions_witness :
  (exists out,
     sort_cves "date" "desc"
       [stored "CVE-1" "2023-06-01" "5.0"; stored "CVE-2" "2023-06-01" "N/A";
        stored "CVE-3" "2024-01-01" "7.1"] = Ok out /\
     filter (fun r => date_of r = "2023-06-01") out
     = [stored "CVE-1" "2023-06-01" "5.0"; stored "CVE-2" "2023-06-01" "N/A"]) /\
  (exists out,
     sort_cves "score" "desc"
       [stored "CVE-1" "2023-06-01" "5.0"; stored "CVE-2" "2023-06-01" "5.5";
        stored "CVE-3" "2024-01-01" "9.8"] = Ok out /\
     filter (fun r => bucket_of r = Some 4) out
     = [stored "CVE-2" "2023-06-01" "5.5"]).
Proof.
  split.
  - destruct (sort_stable_both_directions "date" "desc"
                [stored "CVE-1" "2023-06-01" "5.0"; stored "CVE-2" "2023-06-01" "N/A";
                 stored "CVE-3" "2024-01-01" "7.1"]) as (Hdate & _ & _).
    destruct Hdate as (out & Hout & _ & Hstable & _).
    + discriminate.
    + repeat constructor; eexists; reflexivity.
    + exists out. split; [exact Hout |]. rewrite Hstable. reflexivity.
  - destruct (sort_stable_both_directions "score" "desc"
                [stored "CVE-1" "2023-06-01" "5.0"; stored "CVE-2" "2023-06-01" "5.5";
                 stored "CVE-3" "2024-01-01" "9.8"]) as (_ & Hscore & _).
    destruct Hscore as (out & Hout & _ & Hstable & _).
    + reflexivity.
    + repeat constructor; vm_compute; eexists; reflexivity.
    + exists out. split; [exact Hout |]. rewrite Hstable. vm_compute. reflexivity.
Defined.

(** ** The record store *)

Lemma filter_result_total {A} (p : A -> result bool) (q : A -> bool) (l : list A) :
  Forall (fun x => p x = Ok (q x)) l ->
  filter_result p l = Ok (filter (fun x => q x) l).
Proof.
  induction 1 as [| x l Hx _ IH]; [reflexivity |].
  cbn [filter_result]. rewrite Hx, IH, filter_cons.
  destruct (q x); reflexivity.
Qed.

(** *** Reading the store *)

Lemma read_row_Ok (r : row) : within_limit r = true -> read_row r = Ok r.
Proof. unfold read_row. intros ->. reflexivity. Qed.

(** On rows that are not blank the loop can only stop on a field over the
    limit. *)
Lemma add_ids_result (ids : gset string) (rows : list row) :
  Forall (fun r : row => r <> []) rows ->
  match add_ids ids rows with
  | Ok ids' => forall s, s ∈ ids' <-> s ∈ ids \/ s ∈ omap head rows
  | Raise e => e = CsvError
  end.
Proof.
  revert ids. induction rows as [| r rows IH]; intros ids Hrows.
  - cbn. intros s. set_solver.
  - apply Forall_cons in Hrows as [Hr Hrows].
    cbn [add_ids]. unfold read_row.
    destruct (within_limit r); [| reflexivity].
    destruct r as [| c r]; [contradiction |].
    cbn. specialize (IH ({[c]} ∪ ids) Hrows).
    destruct (add_ids ({[c]} ∪ ids) rows) as [ids' |]; [| exact IH].
    intros s. rewrite IH. set_solver.
Qed.

Lemma add_ids_Ok (ids : gset string) (rows : list row) :
  Forall (fun r => within_limit r = true) rows ->
  Forall (fun r : row => r <> []) rows ->
  exists ids', add_ids ids rows = Ok ids' /\
    forall s, s ∈ ids' <-> s ∈ ids \/ s ∈ omap head rows.
Proof.
  revert ids. induction rows as [| r rows IH]; intros ids Hlim Hrows.
  - exists ids. split; [reflexivity |]. intros s. cbn. set_solver.
  - apply Forall_cons in Hlim as [Hl Hlim]. apply Forall_cons in Hrows as [Hr Hrows].
    destruct r as [| c r]; [contradiction |].
    destruct (IH ({[c]} ∪ ids) Hlim Hrows) as (ids' & Hids' & Hin).
    exists ids'. split.
    + cbn [add_ids]. rewrite (read_row_Ok _ Hl). exact Hids'.
    + intros s. rewrite Hin. cbn. set_solver.
Qed.

Lemma load_ids_result (f : file) :
  Forall (fun r : row => r <> []) (data_rows f) ->
  match load_ids f with
  | Ok ids => forall s, s ∈ ids <-> s ∈ stored_ids f
  | Raise e => e = CsvError
  end.
Proof.
  intros Hrows. destruct f as [[| h rows] |]; cbn [load_ids skip_header].
  - cbn. intros s. set_solver.
  - unfold read_row. destruct (within_limit h); [| reflexivity].
    cbn in Hrows |- *. rewrite drop_0 in Hrows.
    pose proof (add_ids_result ∅ rows Hrows) as H.
    destruct (add_ids ∅ rows) as [ids |]; [| exact H].
    intros s. rewrite H. unfold stored_ids. cbn. rewrite drop_0. set_solver.
  - intros s. cbn. set_solver.
Qed.

Lemma load_ids_Ok (f : file) :
  Forall (fun r => within_limit r = true) (all_rows f) ->
  Forall (fun r : row => r <> []) (data_rows f) ->
  exists ids, load_ids f = Ok ids /\ forall s, s ∈ ids <-> s ∈ stored_ids f.
Proof.
  intros Hlim Hrows. destruct f as [[| h rows] |]; cbn [load_ids skip_header].
  - exists ∅. split; [reflexivity |]. intros s. cbn. set_solver.
  - cbn in Hlim, Hrows. rewrite drop_0 in Hrows.
    apply Forall_cons in Hlim as [Hh Hlim].
    rewrite (read_row_Ok _ Hh).
    destruct (add_ids_Ok ∅ rows Hlim Hrows) as (ids & Hids & Hin).
    exists ids. split; [exact Hids |].
    intros s. rewrite Hin. unfold stored_ids. cbn. rewrite drop_0. set_solver.
  - exists ∅. split; [reflexivity |]. intros s. cbn. set_solver.
Qed.

Lemma map_read_row (rows : list row) :
  Forall (fun r => within_limit r = true) rows -> map_result read_row rows = Ok rows.
Proof.
  induction 1 as [| r rows Hr _ IH]; [reflexivity |].
  cbn [map_result]. rewrite (read_row_Ok _ Hr), IH. reflexivity.
Qed.

Lemma load_csv_Ok (f : file) :
  Forall (fun r => within_limit r = true) (all_rows f) ->
  load_csv f = Ok (data_rows f).
Proof.
  intros Hlim. destruct f as [[| h rows] |]; [reflexivity | | reflexivity].
  cbn in Hlim. apply Forall_cons in Hlim as [Hh Hlim].
  cbn [load_csv skip_header]. rewrite (read_row_Ok _ Hh). cbn.
  rewrite drop_0. apply map_read_row, Hlim.
Qed.

Lemma map_read_row_inv (rows out : list row) :
  map_result read_row rows = Ok out ->
  out = rows /\ Forall (fun r => within_limit r = true) rows.
Proof.
  revert out. induction rows as [| r rows IH]; intros out H; cbn [map_result] in H.
  - injection H as <-. split; constructor.
  - destruct (read_row r) as [r' |] eqn:Hread; cbn in H; [| discriminate].
    unfold read_row in Hread. destruct (within_limit r) eqn:Hr; [| discriminate].
    injection Hread as <-.
    destruct (map_result read_row rows) as [out' |]; cbn in H; [| discriminate].
    injection H as <-.
    destruct (IH out' eq_refl) as [-> Hrows]. split; [reflexivity |].
    constructor; assumption.
Qed.

(** Whenever [load_csv] returns, it returns the rows after the header. *)
Lemma load_csv_inv (f : file) (rows : list row) :
  load_csv f = Ok rows -> rows = data_rows f.
Proof.
  destruct f as [[| h all] |]; cbn [load_csv skip_header].
  - intros [= <-]. reflexivity.
  - unfold read_row. destruct (within_limit h); cbn; [| discriminate].
    rewrite drop_0. intros H. apply map_read_row_inv in H as [-> _]. reflexivity.
  - intros [= <-]. reflexivity.
Qed.

(** *** Writing rows *)

Lemma writerows_all (rows : list row) :
  Forall (fun r => row_encodable r = true) rows -> writerows rows = (rows, Ok ()).
Proof.
  induction 1 as [| r rows Hr _ IH]; [reflexivity |].
  cbn [writerows]. rewrite Hr, IH. reflexivity.
Qed.

(** The rows written are the renderings of a prefix of the batch; the
    call returns only when this is the whole batch, and otherwise raises
    the encoding error. *)
Lemma writerows_fmap {A} (g : A -> row) (l : list A) :
  exists u k, l = (u ++ k)%list /\
    fst (writerows (g <$> l)) = g <$> u /\
    (snd (writerows (g <$> l)) = Ok () /\ k = [] \/
     snd (writerows (g <$> l)) = Raise UnicodeEncodeError).
Proof.
  induction l as [| x l IH].
  - exists [], []. split; [reflexivity |]. split; [reflexivity |]. left. split; reflexivity.
  - cbn [fmap list_fmap writerows]. destruct (row_encodable (g x)).
    + destruct IH as (u & k & Hl & Hfst & Hsnd).
      exists (x :: u), k. split; [rewrite Hl; reflexivity |].
      split; [cbn; rewrite Hfst; reflexivity |]. exact Hsnd.
    + exists [], (x :: l). split; [reflexivity |]. split; [reflexivity |].
      right. reflexivity.
Qed.


Lemma csv_row_head (py_str : value -> string) (r : list value) :
  is_Some (record_id r) -> head (csv_row py_str r) = record_id r.
Proof. destruct r as [| [] r]; cbn; intros [i Hi]; (discriminate || reflexivity). Qed.

Lemma written_ids (py_str : value -> string) (u : list (list value)) :
  Forall (fun r => is_Some (record_id r)) u ->
  omap head (csv_row py_str <$> u) = omap record_id u.
Proof.
  induction 1 as [| r u Hr _ IH]; [reflexivity |].
  cbn. rewrite (csv_row_head _ _ Hr), IH. reflexivity.
Qed.

Lemma written_nonblank (py_str : value -> string) (u : list (list value)) :
  Forall (fun r => is_Some (record_id r)) u ->
  Forall (fun r : row => r <> []) (csv_row py_str <$> u).
Proof.
  intros Hu. rewrite Forall_fmap. eapply Forall_impl; [exact Hu |].
  intros [| [] r] [i Hi]; cbn in *; discriminate.
Qed.

Lemma plain_string_ids (py_str : value -> string) (u : list (list value)) :
  Forall (plain_record py_str) u -> Forall (fun r => is_Some (record_id r)) u.
Proof.
  intros Hu. eapply Forall_impl; [exact Hu |]. intros r (Hid & _). exact Hid.
Qed.

Lemma Forall_filter_keeps {A} (P : A -> Prop) (Q : A -> Prop)
    `{forall x, Decision (Q x)} (l : list A) :
  Forall P l -> Forall P (filter Q l).
Proof.
  rewrite !Forall_forall. intros Hl x [_ Hx]%list_elem_of_filter. exact (Hl x Hx).
Qed.

Lemma written_within (py_str : value -> string) (u : list (list value)) :
  Forall (plain_record py_str) u ->
  Forall (fun r => within_limit r = true) (csv_row py_str <$> u).
Proof.
  intros Hu. rewrite Forall_fmap. eapply Forall_impl; [exact Hu |].
  intros r (_ & _ & Hlim). exact Hlim.
Qed.

Lemma written_encodable (py_str : value -> string) (u : list (list value)) :
  Forall (plain_record py_str) u ->
  Forall (fun r => row_encodable r = true) (csv_row py_str <$> u).
Proof.
  intros Hu. rewrite Forall_fmap. eapply Forall_impl; [exact Hu |].
  intros r (_ & Henc & _). exact Henc.
Qed.

Lemma filter_result_novel (ids : gset string) (stored : list string)
    (new_data : list (list value)) :
  (forall s, s ∈ ids <-> s ∈ stored) ->
  Forall (fun r => is_Some (record_id r)) new_data ->
  filter_result (fun r => v ← getitem r 0; not_in v ids) new_data =
    Ok (filter (fun r => is_novel stored r) new_data).
Proof.
  intros Hids Hnew. apply (filter_result_total _ (is_novel stored)).
  eapply Forall_impl; [exact Hnew |].
  intros [| [] r] [i Hi]; try discriminate. cbn.
  unfold is_novel. cbn. f_equal.
  apply bool_decide_ext. rewrite Hids. reflexivity.
Qed.

(** What one call does, on plain records and a store that can be read. *)
Lemma save_to_csv_spec (py_str : value -> string) (new_data : list (list value)) (f : file) :
  Forall (plain_record py_str) new_data ->
  readable f ->
  save_to_csv py_str new_data f =
    (Some (match f with
           | None => HEADER :: (csv_row py_str <$> filter (fun r => is_novel (stored_ids f) r) new_data)
           | Some rows => (rows ++ (csv_row py_str <$> filter (fun r => is_novel (stored_ids f) r) new_data))%list
           end),
     Ok (Z.of_nat (length (filter (fun r => is_novel (stored_ids f) r) new_data)))).
Proof.
  intros Hnew (_ & Hlim & Hrows). unfold save_to_csv.
  destruct (load_ids_Ok f Hlim Hrows) as (ids & -> & Hids).
  rewrite (filter_result_novel ids (stored_ids f) new_data Hids (plain_string_ids _ _ Hnew)).
  rewrite writerows_all; [reflexivity |].
  apply written_encodable, Forall_filter_keeps, Hnew.
Qed.


Lemma data_rows_after (f : file) (header : row) (written : list row) :
  f <> Some [] ->
  data_rows (Some (match f with
                   | None => header :: written
                   | Some rows => (rows ++ written)%list
                   end)) = (data_rows f ++ written)%list.
Proof. destruct f as [[| h rows] |]; intros Hf; [contradiction | |]; reflexivity. Qed.

Lemma stored_ids_after (py_str : value -> string) (f : file) (header : row)
    (u : list (list value)) :
  f <> Some [] ->
  Forall (fun r => is_Some (record_id r)) u ->
  stored_ids (Some (match f with
                    | None => header :: (csv_row py_str <$> u)
                    | Some rows => (rows ++ (csv_row py_str <$> u))%list
                    end)) = (stored_ids f ++ omap record_id u)%list.
Proof.
  intros Hf Hu. unfold stored_ids. rewrite (data_rows_after f _ _ Hf).
  rewrite omap_app, (written_ids _ _ Hu). reflexivity.
Qed.

Lemma filter_novel_ids (ids : list string) (new_data : list (list value)) (s : string) :
  s ∈ omap record_id (filter (fun r => is_novel ids r) new_data) <->
  s ∈ omap record_id new_data /\ s ∉ ids.
Proof.
  rewrite !list_elem_of_omap. split.
  - intros (r & Hr & Hs). apply list_elem_of_filter in Hr as [Hnov Hr].
    split; [exists r; split; assumption |].
    unfold is_novel in Hnov. rewrite Hs in Hnov. apply bool_decide_unpack in Hnov.
    exact Hnov.
  - intros [(r & Hr & Hs) Hnot]. exists r. split; [| exact Hs].
    apply list_elem_of_filter. split; [| exact Hr].
    unfold is_novel. rewrite Hs. apply bool_decide_pack. exact Hnot.
Qed.

Lemma NoDup_omap_filter {A B} (f : A -> option B) (P : A -> Prop)
    `{forall x, Decision (P x)} (l : list A) :
  NoDup (omap f l) -> NoDup (omap f (filter P l)).
Proof.
  induction l as [| x l IH]; [intros; constructor |].
  rewrite filter_cons. cbn.
  destruct (decide (P x)); cbn; destruct (f x) as [y |]; try exact IH.
  - rewrite !NoDup_cons. intros [Hy Hl]. split; [| apply IH, Hl].
    rewrite list_elem_of_omap in Hy |- *. intros (z & Hz & Hfz).
    apply Hy. exists z. split; [| exact Hfz].
    apply list_elem_of_filter in Hz as [_ Hz]. exact Hz.
  - intros [_ Hl]%NoDup_cons. apply IH, Hl.
Qed.

Lemma filter_none {A} (P : A -> Prop) `{forall x, Decision (P x)} (l : list A) :
  Forall (fun x => ~ P x) l -> filter P l = [].
Proof.
  induction 1 as [| x l Hx _ IH]; [reflexivity |].
  rewrite filter_cons_False by exact Hx. exact IH.
Qed.

(** The second of two equal calls finds every identifier stored. *)
Lemma filter_novel_after (ids : list string) (new_data : list (list value)) :
  Forall (fun r => is_Some (record_id r)) new_data ->
  filter (fun r => is_novel
            (ids ++ omap record_id (filter (fun r' => is_novel ids r') new_data))%list r)
         new_data = [].
Proof.
  intros Hnew. apply filter_none.
  rewrite Forall_forall in Hnew |- *. intros r Hr Hnov.
  destruct (Hnew r Hr) as [s Hs].
  unfold is_novel in Hnov. rewrite Hs in Hnov. apply bool_decide_unpack in Hnov.
  apply Hnov. apply elem_of_app.
  destruct (decide (s ∈ ids)) as [Hin | Hout]; [left; exact Hin | right].
  apply filter_novel_ids. split; [| exact Hout].
  apply list_elem_of_omap. exists r. split; assumption.
Qed.

(** *** Stores left by earlier calls *)

Lemma readable_None : readable None.
Proof. split; [discriminate |]. split; constructor. Qed.

Lemma HEADER_within : within_limit HEADER = true.
Proof. vm_compute. reflexivity. Qed.

(** One call on plain records keeps the store readable and adds the
    identifiers that were not stored. *)
Lemma save_to_csv_keeps_readable (py_str : value -> string)
    (b : list (list value)) (f : file) :
  readable f ->
  Forall (plain_record py_str) b ->
  readable (fst (save_to_csv py_str b f)) /\
  stored_ids (fst (save_to_csv py_str b f)) =
    (stored_ids f ++ omap record_id (filter (fun r => is_novel (stored_ids f) r) b))%list.
Proof.
  intros Hf Hb.
  rewrite (save_to_csv_spec py_str b f Hb Hf). cbn [fst].
  destruct Hf as (Hf & Hlim & Hrows).
  set (u := filter (fun r => is_novel (stored_ids f) r) b).
  assert (Hu : Forall (plain_record py_str) u) by (apply Forall_filter_keeps, Hb).
  split; [split; [| split] |].
  - destruct f as [[| h rows] |]; [contradiction | discriminate | discriminate].
  - destruct f as [rows |]; cbn [all_rows default] in *.
    + apply Forall_app. split; [exact Hlim | apply written_within, Hu].
    + constructor; [exact HEADER_within | apply written_within, Hu].
  - rewrite (data_rows_after f HEADER _ Hf).
    apply Forall_app. split; [exact Hrows |].
    apply written_nonblank, (plain_string_ids py_str), Hu.
  - exact (stored_ids_after py_str f HEADER u Hf (plain_string_ids _ _ Hu)).
Qed.

Lemma appends_readable (py_str : value -> string)
    (batches : list (list (list value))) (f : file) :
  plain_batches py_str batches -> readable f -> readable (appends py_str batches f).
Proof.
  intros Hbatches. revert f.
  induction Hbatches as [| b batches Hb _ IH]; intros f Hf; [exact Hf |].
  cbn [appends fold_left]. apply IH.
  exact (proj1 (save_to_csv_keeps_readable py_str b f Hf Hb)).
Qed.

(** The store that a sequence of calls on plain records leaves, starting
    from no file, can be read. *)
Lemma kept_store_readable (py_str : value -> string)
    (batches : list (list (list value))) :
  plain_batches py_str batches -> readable (appends py_str batches None).
Proof. intros Hbatches. exact (appends_readable py_str batches None Hbatches readable_None). Qed.

Lemma save_to_csv_again (py_str : value -> string)
    (new_data : list (list value)) (f : file) :
  readable f ->
  Forall (plain_record py_str) new_data ->
  save_to_csv py_str new_data (fst (save_to_csv py_str new_data f)) =
    (fst (save_to_csv py_str new_data f), Ok 0).
Proof.
  intros Hf Hnew.
  destruct (save_to_csv_keeps_readable py_str new_data f Hf Hnew) as (Hf1 & Hids1).
  rewrite (save_to_csv_spec py_str new_data _ Hnew Hf1), Hids1.
  rewrite (filter_novel_after _ _ (plain_string_ids _ _ Hnew)).
  rewrite (save_to_csv_spec py_str new_data f Hnew Hf). cbn.
  destruct f as [rows |]; rewrite !app_nil_r; reflexivity.
Qed.

Ltac plain :=
  unfold plain_batches;
  repeat first
    [ apply List.Forall_nil
    | apply List.Forall_cons
    | match goal with
      | |- plain_record _ _ =>
          split; [eexists; reflexivity | split; vm_compute; reflexivity]
      end ].

(** ** Claims on the record store *)




(** C8, as stated, fails on a store file that exists but is empty: the
    first call writes the record as the first row of the file, where the
    second call takes it for the header, so the second call writes the
    record again and returns 1. *)
Lemma save_to_csv_twice_on_empty_file :
  save_to_csv no_str [entry "A"] (Some []) = (Some [csv_row no_str (entry "A")], Ok 1) /\
  save_to_csv no_str [entry "A"] (Some [csv_row no_str (entry "A")]) =
    (Some [csv_row no_str (entry "A"); csv_row no_str (entry "A")], Ok 1).
Proof. vm_compute. split; reflexivity. Qed.

(** C8, amended: for every store left by earlier [save_to_csv] calls on
    plain records, starting from no file, and every batch of plain records
    (a string identifier first, every field encodable as UTF-8 and within
    the reader's field limit), [save_to_csv] is idempotent: a second call
    with the same batch leaves the store as the first call left it and
    returns 0. *)
Theorem save_to_csv_idempotent (py_str : value -> string)
    (batches : list (list (list value))) (new_data : list (list value)) :
  plain_batches py_str batches ->
  Forall (plain_record py_str) new_data ->
  exists f1 n,
    save_to_csv py_str new_data (appends py_str batches None) = (f1, Ok n) /\
    save_to_csv py_str new_data f1 = (f1, Ok 0).
Proof.
  intros Hbatches Hnew.
  pose proof (kept_store_readable py_str batches Hbatches) as Hf.
  pose proof (save_to_csv_again py_str new_data _ Hf Hnew) as Hagain.
  rewrite (save_to_csv_spec py_str new_data _ Hnew Hf) in Hagain |- *.
  eexists _, _. split; [reflexivity | exact Hagain].
Qed.

Lemma save_to_csv_idempotent_witness :
  exists f1 n,
    save_to_csv no_str [entry "A"; entry "B"] (appends no_str [[entry "A"]] None)
      = (f1, Ok n) /\
    save_to_csv no_str [entry "A"; entry "B"] f1 = (f1, Ok 0).
Proof.
  apply (save_to_csv_idempotent no_str [[entry "A"]] [entry "A"; entry "B"]).
  - plain.
  - plain.
Defined.

(** One call, whatever it meets, leaves the store as it was or extends it
    with the renderings of the first novel records of the batch. *)
Lemma save_to_csv_step (py_str : value -> string) (b : list (list value)) (f : file) :
  Forall (fun r => is_Some (record_id r)) b ->
  Forall (fun r : row => r <> []) (data_rows f) ->
  fst (save_to_csv py_str b f) = f \/
  exists u k,
    filter (fun r => is_novel (stored_ids f) r) b = (u ++ k)%list /\
    fst (save_to_csv py_str b f) =
      Some (match f with
            | None => HEADER :: (csv_row py_str <$> u)
            | Some rows => (rows ++ (csv_row py_str <$> u))%list
            end).
Proof.
  intros Hb Hrows. unfold save_to_csv.
  pose proof (load_ids_result f Hrows) as Hids.
  destruct (load_ids f) as [ids |]; [| left; reflexivity].
  rewrite (filter_result_novel ids (stored_ids f) b Hids Hb).
  right.
  destruct (writerows_fmap (csv_row py_str) (filter (fun r => is_novel (stored_ids f) r) b))
    as (u & k & Hk & Hw & _).
  exists u, k. split; [exact Hk |]. cbn [fst]. rewrite Hw. reflexivity.
Qed.

(** One call keeps a store well formed and free of repeated identifiers,
    when the batch itself repeats none. *)
Lemma save_to_csv_keeps_unique (py_str : value -> string)
    (b : list (list value)) (f : file) :
  f <> Some [] ->
  Forall (fun r : row => r <> []) (data_rows f) ->
  NoDup (stored_ids f) ->
  Forall (fun r => is_Some (record_id r)) b ->
  NoDup (omap record_id b) ->
  fst (save_to_csv py_str b f) <> Some [] /\
  Forall (fun r : row => r <> []) (data_rows (fst (save_to_csv py_str b f))) /\
  NoDup (stored_ids (fst (save_to_csv py_str b f))).
Proof.
  intros Hf Hrows Hnodup Hb Hbnodup.
  destruct (save_to_csv_step py_str b f Hb Hrows) as [-> | (u & k & Hk & ->)];
    [split; [| split]; assumption |].
  assert (Hnovel : Forall (fun r => is_Some (record_id r))
                     (filter (fun r => is_novel (stored_ids f) r) b))
    by (apply Forall_filter_keeps, Hb).
  rewrite Hk in Hnovel. apply Forall_app in Hnovel as [Hu _].
  split; [| split].
  - destruct f as [[| h rows] |]; [contradiction | discriminate | discriminate].
  - rewrite (data_rows_after f HEADER _ Hf).
    apply Forall_app. split; [exact Hrows | apply written_nonblank, Hu].
  - rewrite (stored_ids_after py_str f HEADER u Hf Hu).
    pose proof (NoDup_omap_filter record_id (fun r => is_novel (stored_ids f) r) b Hbnodup)
      as Hfresh.
    rewrite Hk, omap_app in Hfresh. apply NoDup_app in Hfresh as (Hunodup & _ & _).
    apply NoDup_app. split; [exact Hnodup |]. split; [| exact Hunodup].
    intros s Hs Hin.
    assert (Hin' : s ∈ omap record_id (filter (fun r => is_novel (stored_ids f) r) b)).
    { rewrite Hk, omap_app. apply elem_of_app. left. exact Hin. }
    apply filter_novel_ids in Hin' as [_ Hnot]. exact (Hnot Hs).
Qed.

Lemma appends_keep_unique (py_str : value -> string)
    (batches : list (list (list value))) (f : file) :
  Forall (fun b => Forall (fun r => is_Some (record_id r)) b /\
                   NoDup (omap record_id b)) batches ->
  f <> Some [] ->
  Forall (fun r : row => r <> []) (data_rows f) ->
  NoDup (stored_ids f) ->
  Forall (fun r : row => r <> []) (data_rows (appends py_str batches f)) /\
  NoDup (stored_ids (appends py_str batches f)).
Proof.
  intros Hbatches. revert f.
  induction Hbatches as [| b batches [Hb Hbnodup] _ IH]; intros f Hf Hrows Hnodup.
  - split; assumption.
  - cbn [appends fold_left].
    destruct (save_to_csv_keeps_unique py_str b f Hf Hrows Hnodup Hb Hbnodup)
      as (Hf' & Hrows' & Hnodup').
    exact (IH _ Hf' Hrows' Hnodup').
Qed.

(** C4, as stated, fails: a single batch that holds the identifier A
    twice is written to a new store in full, which then has two rows with
    the identifier A. *)
Lemma save_to_csv_keeps_batch_duplicates :
  appends no_str [[entry "A"; entry "A"]] None =
    Some [HEADER; csv_row no_str (entry "A"); csv_row no_str (entry "A")] /\
  stored_ids (appends no_str [[entry "A"; entry "A"]] None) = ["A"; "A"] /\
  ~ NoDup (stored_ids (appends no_str [[entry "A"; entry "A"]] None)).
Proof.
  assert (H : stored_ids (appends no_str [[entry "A"; entry "A"]] None) = ["A"; "A"])
    by (vm_compute; reflexivity).
  split; [vm_compute; reflexivity |]. split; [exact H |].
  rewrite H. intros [Hin _]%NoDup_cons. apply Hin, list_elem_of_here.
Qed.

(** C4, amended: after any sequence of [save_to_csv] calls starting from a
    nonexistent store, with batches of records carrying a string
    identifier of which none holds the same identifier twice, no two rows
    of the store share an identifier (and every row has one). Identifiers
    repeated inside one batch are not filtered. *)
Theorem store_ids_unique (py_str : value -> string)
    (batches : list (list (list value))) :
  Forall (fun b => Forall (fun r => is_Some (record_id r)) b /\
                   NoDup (omap record_id b)) batches ->
  Forall (fun r : row => r <> []) (data_rows (appends py_str batches None)) /\
  NoDup (stored_ids (appends py_str batches None)).
Proof.
  intros Hbatches.
  apply (appends_keep_unique py_str batches None Hbatches).
  - discriminate.
  - constructor.
  - constructor.
Qed.

Lemma store_ids_unique_witness :
  NoDup (stored_ids (appends no_str
                       [[entry "A"; entry "B"; entry "C"];
                        [entry "B"; entry "C"; entry "D"]] None)).
Proof.
  apply (store_ids_unique no_str
           [[entry "A"; entry "B"; entry "C"]; [entry "B"; entry "C"; entry "D"]]).
  constructor; [split | constructor; [split | constructor]].
  - repeat (apply List.Forall_cons; [eexists; reflexivity |]). apply List.Forall_nil.
  - apply (bool_decide_unpack _). vm_compute. exact I.
  - repeat (apply List.Forall_cons; [eexists; reflexivity |]). apply List.Forall_nil.
  - apply (bool_decide_unpack _). vm_compute. exact I.
Defined.

(** ** Claims on the refresh orchestration *)

(** An exception raised while the store is read or the batch is filtered
    leaves the file as it was; the only other exception comes from the
    encoder, while the rows are written. *)
Lemma save_to_csv_raise_cases (py_str : value -> string)
    (new_data : list (list value)) (f : file) (e : exn) :
  snd (save_to_csv py_str new_data f) = Raise e ->
  fst (save_to_csv py_str new_data f) = f \/ e = UnicodeEncodeError.
Proof.
  unfold save_to_csv.
  destruct (load_ids f); [| left; reflexivity].
  destruct (filter_result _ new_data) as [u |]; [| left; reflexivity].
  cbn [fst snd].
  destruct (writerows_fmap (csv_row py_str) u) as (u' & k & _ & _ & [[-> _] | ->]).
  - discriminate.
  - intros [= <-]. right. reflexivity.
Qed.

(** C3, as stated, fails. When the download, the parse and the append
    succeed and the timestamp file cannot be opened for writing,
    [run_tracker] returns the failure text, yet the store file has been
    created with the new record. When the feed holds a record that cannot
    be encoded, the append raises after it has created the store and
    written the records before that one. And when the write to the opened
    timestamp file fails, that file is left empty. *)
Lemma run_tracker_keeps_rows_on_stamp_failure :
  run_tracker no_str stale_stamp_env no_disk =
    ({| store := Some [HEADER; csv_row no_str (entry "CVE-2023-0001")];
        stamp := None |},
     Error OSError) /\
  store (fst (run_tracker no_str stale_stamp_env no_disk)) <> store no_disk /\
  parse_feed surrogate_feed = Ok [entry "A"; entry lone_surrogate; entry "B"] /\
  run_tracker no_str surrogate_env no_disk =
    ({| store := Some [HEADER; ["A"; "Remote code execution"; "2023-06-01T00:00Z"; "N/A"]];
        stamp := None |},
     Error UnicodeEncodeError) /\
  run_tracker no_str truncated_stamp_env
    {| store := None; stamp := Some "2023-12-31 00:00:00" |} =
    ({| store := Some [HEADER; csv_row no_str (entry "CVE-2023-0001")];
        stamp := Some "" |},
     Error OSError).
Proof.
  split; [vm_compute; reflexivity |].
  split; [vm_compute; discriminate |].
  split; [vm_compute; reflexivity |].
  split; vm_compute; reflexivity.
Qed.

(** C3, amended: [run_tracker] never re-raises, it returns a failure text
    for every stage that raises. When the download or the parse raises,
    or the append raises while it reads the store or filters the batch
    ([IndexError], [TypeError], [csv.Error]), the store file and the
    timestamp file are exactly as before the refresh. When the append
    raises while it writes, the store is as that call left it (created,
    and holding the rows written before the failing one) and the
    timestamp file is as before. When the timestamp update raises after a
    successful append, the store keeps the rows just appended, and the
    timestamp file is as before if it could not be opened, and otherwise
    emptied, holding at most a part of the new timestamp. *)
Theorem run_tracker_failure (py_str : value -> string) (w : env) (d : disk) :
  (forall e, download_feed w = Raise e -> run_tracker py_str w d = (d, Error e)) /\
  (forall raw e, download_feed w = Ok raw -> parse_feed raw = Raise e ->
     run_tracker py_str w d = (d, Error e)) /\
  (forall raw results e,
     download_feed w = Ok raw -> parse_feed raw = Ok results ->
     snd (save_to_csv py_str results (store d)) = Raise e ->
     run_tracker py_str w d =
       ({| store := fst (save_to_csv py_str results (store d)); stamp := stamp d |},
        Error e) /\
     (e = IndexError \/ e = TypeError \/ e = CsvError ->
      run_tracker py_str w d = (d, Error e))) /\
  (forall raw results n,
     download_feed w = Ok raw -> parse_feed raw = Ok results ->
     snd (save_to_csv py_str results (store d)) = Ok n ->
     stamp_writable w = false ->
     exists t,
       run_tracker py_str w d =
         ({| store := fst (save_to_csv py_str results (store d)); stamp := t |},
          Error OSError) /\
       (stamp_write w = NotOpened -> t = stamp d) /\
       (forall kept, stamp_write w = Truncated kept ->
          t = Some (text (take kept (chars (now w)))))) /\
  (forall e, snd (run_tracker py_str w d) = Error e ->
     stamp (fst (run_tracker py_str w d)) = stamp d \/
     exists kept, stamp_write w = Truncated kept /\ e = OSError /\
       stamp (fst (run_tracker py_str w d)) = Some (text (take kept (chars (now w))))).
Proof.
  unfold run_tracker. split; [| split; [| split; [| split]]].
  - intros e ->. reflexivity.
  - intros raw e -> ->. reflexivity.
  - intros raw results e -> -> Hsave.
    pose proof (save_to_csv_raise_cases _ _ _ _ Hsave) as Hcases.
    destruct (save_to_csv py_str results (store d)) as [f' r]. cbn in *. subst.
    split; [reflexivity |].
    intros He. destruct Hcases as [-> | ->].
    + destruct d. reflexivity.
    + destruct He as [He | [He | He]]; discriminate.
  - intros raw results n -> -> Hsave Hw.
    destruct (save_to_csv py_str results (store d)) as [f' r]. cbn in *. subst.
    unfold stamp_writable in Hw. unfold save_last_updated.
    destruct (stamp_write w) as [| | kept]; [discriminate | |].
    + eexists. split; [reflexivity |]. split; [reflexivity | discriminate].
    + eexists. split; [reflexivity |]. split; [discriminate |].
      intros kept' [= <-]. reflexivity.
  - intros e.
    destruct (download_feed w) as [raw |]; [| left; reflexivity].
    destruct (parse_feed raw) as [results |]; [| left; reflexivity].
    destruct (save_to_csv py_str results (store d)) as [f' [n |]]; [| left; reflexivity].
    unfold save_last_updated.
    destruct (stamp_write w) as [| | kept]; [discriminate | left; reflexivity |].
    cbn. intros [= <-]. right. exists kept. repeat split.
Qed.

Lemma run_tracker_failure_witness :
  exists t,
    run_tracker no_str stale_stamp_env no_disk =
      ({| store := fst (save_to_csv no_str [entry "CVE-2023-0001"] None); stamp := t |},
       Error OSError) /\
    t = None.
Proof.
  destruct (run_tracker_failure no_str stale_stamp_env no_disk) as (_ & _ & _ & Hstamp & _).
  destruct (Hstamp one_entry_feed [entry "CVE-2023-0001"] 1) as (t & Hrun & Hkeep & _).
  - reflexivity.
  - vm_compute. reflexivity.
  - vm_compute. reflexivity.
  - reflexivity.
  - exists t. split; [exact Hrun |]. apply Hkeep. reflexivity.
Defined.

(** ** Claims on pagination *)

Lemma py_slice_empty {A} (l : list A) (start stop : Z) :
  Z.of_nat (length l) <= start \/ (stop <= 0 /\ stop + Z.of_nat (length l) <= 0) \/ stop = 0 ->
  0 <= start \/ stop = 0 ->
  py_slice l start stop = [].
Proof.
  intros Hrange Hstart. unfold py_slice.
  set (n := Z.of_nat (length l)) in *.
  assert (Hn : 0 <= n) by (unfold n; lia).
  destruct (start <? 0) eqn:Hs, (stop <? 0) eqn:Ht;
    rewrite ?Z.ltb_lt, ?Z.ltb_ge in Hs, Ht.
  - replace (Z.to_nat _) with 0%nat by lia. reflexivity.
  - replace (Z.to_nat (Z.min stop n - Z.max 0 (start + n))) with 0%nat by lia.
    reflexivity.
  - replace (Z.to_nat (Z.max 0 (stop + n) - Z.min start n)) with 0%nat by lia.
    reflexivity.
  - destruct Hrange as [Hr | [Hr | Hr]].
    + replace (Z.min start n) with n by lia.
      rewrite drop_ge by (unfold n; lia). apply take_nil.
    + replace (Z.to_nat (Z.min stop n - Z.min start n)) with 0%nat by lia.
      reflexivity.
    + replace (Z.to_nat (Z.min stop n - Z.min start n)) with 0%nat by lia.
      reflexivity.
Qed.

Lemma paginate_beyond_last (all_cves : list row) (p : Z) :
  snd (paginate all_cves p) < p -> fst (paginate all_cves p) = [].
Proof.
  unfold paginate, per_page. cbn [fst snd]. intros Hp.
  apply py_slice_empty; [left | left].
  - pose proof (Z.div_mod (Z.of_nat (length all_cves) + 100 - 1) 100 ltac:(lia)).
    pose proof (Z.mod_pos_bound (Z.of_nat (length all_cves) + 100 - 1) 100 ltac:(lia)).
    lia.
  - assert (0 <= (Z.of_nat (length all_cves) + 100 - 1) / 100)
      by (apply Z.div_pos; lia).
    lia.
Qed.

(** C6, as stated, fails: a page value that is not an integer makes
    [int] raise, and [index] with it; and an out-of-range page below 1 can
    return rows, as page -1 of 250 rows does. *)
Lemma index_raises_on_malformed_page :
  py_int "abc" = None /\
  index (page_request "abc") no_disk = Raise ValueError /\
  length (fst (paginate (replicate 250 (stored "CVE-1" "2023-06-01" "N/A")) (-1))) = 100%nat.
Proof. vm_compute. repeat split. Qed.

(** A filter step of [index] on rows that have the field it reads. *)
Lemma filter_step (skip : bool) (p : row -> result bool) (q : row -> bool)
    (rows : list row) :
  Forall (fun r => p r = Ok (q r)) rows ->
  exists rows', (if skip then Ok rows else filter_result p rows) = Ok rows' /\
    forall r, r ∈ rows' -> r ∈ rows.
Proof.
  intros Hp. destruct skip.
  - exists rows. split; [reflexivity | auto].
  - exists (filter (fun r => q r) rows).
    split; [apply filter_result_total, Hp |].
    intros r Hr. apply list_elem_of_filter in Hr as [_ Hr]. exact Hr.
Qed.

Lemma int_literal_None (s : string) : int_literal s = None -> py_int s = None.
Proof. unfold py_int. intros ->. reflexivity. Qed.

Lemma index_returns (args : request_args) (d : disk) (p : Z) (rows : list row) :
  page_of args = Ok p ->
  load_csv (store d) = Ok rows ->
  Forall (fun r => is_Some (r !! 2%nat) /\
                   (arg_sort args = Some "score" -> is_Some (bucket_of r)))
         rows ->
  exists v, index args d = Ok v /\ page v = p /\
            (total_pages v < p -> cves v = []).
Proof.
  intros Hpage Hload Hrows. unfold index. rewrite Hpage, Hload. cbn [mbind result_bind].
  destruct (filter_step (lower (default "" (arg_q args)) =? "")%string
              (fun r => descr ← getitem r 1;
                        Ok (contains (lower (default "" (arg_q args))) (lower descr)))
              (fun r => contains (lower (default "" (arg_q args)))
                          (lower (default "" (r !! 1%nat))))
              rows) as (rows1 & -> & Hsub1).
  { eapply Forall_impl; [exact Hrows |]. intros r [[x Hx] _]. unfold getitem.
    destruct r as [| a [| b r]]; try discriminate. reflexivity. }
  cbn [mbind result_bind].
  destruct (filter_step (default "" (arg_year args) =? "")%string
              (fun r => published ← getitem r 2;
                        Ok (first4 published =? default "" (arg_year args))%string)
              (fun r => (first4 (default "" (r !! 2%nat)) =? default "" (arg_year args))%string)
              rows1) as (rows2 & -> & Hsub2).
  { apply Forall_forall. intros r Hr%Hsub1.
    rewrite Forall_forall in Hrows. destruct (Hrows r Hr) as [[x Hx] _].
    unfold getitem. rewrite Hx. reflexivity. }
  cbn [mbind result_bind].
  assert (Hrows2 : Forall (fun r => is_Some (r !! 2%nat) /\
                     (arg_sort args = Some "score" -> is_Some (bucket_of r))) rows2).
  { apply Forall_forall. intros r Hr%Hsub2%Hsub1.
    rewrite Forall_forall in Hrows. exact (Hrows r Hr). }
  assert (Hsort : exists out,
            sort_cves (default "date" (arg_sort args)) (default "desc" (arg_order args))
              rows2 = Ok out).
  { destruct (decide (default "date" (arg_sort args) = "score")) as [Hscore | Hdate].
    - rewrite Hscore.
      destruct (sort_cves_score_spec (default "desc" (arg_order args)) rows2)
        as (out & Hout & _); [| exists out; exact Hout].
      eapply Forall_impl; [exact Hrows2 |]. intros r [_ Hb]. apply Hb.
      destruct (arg_sort args); cbn in Hscore; [congruence | discriminate].
    - destruct (sort_cves_date_spec (default "date" (arg_sort args))
                  (default "desc" (arg_order args)) rows2 Hdate)
        as (out & Hout & _); [| exists out; exact Hout].
      eapply Forall_impl; [exact Hrows2 |]. intros r [Hd _]. exact Hd. }
  destruct Hsort as (out & ->). cbn [mbind result_bind].
  pose proof (paginate_beyond_last out p) as Hlast.
  destruct (paginate out p) as [paginated_cves pages].
  eexists. split; [reflexivity |]. split; [reflexivity | exact Hlast].
Qed.

(** C6, amended: a page value of ASCII text that is not an integer
    literal (an optional sign and decimal digits, single underscores
    between digits allowed, with whitespace around) makes [index] raise a
    [ValueError]. For every store that [load_csv] reads, whose rows have
    the fields the filters and the sort read (when sorting by score, a
    score of ASCII text that has a bucket), and every page value that
    [int] converts, [index] returns without error, and a page number
    beyond the last page yields the empty slice; with 250 records and page
    size 100 there are 3 pages and page 4 is empty. *)
Theorem pagination_beyond_last_is_empty
    (args : request_args) (d : disk) (all_cves : list row) (p : Z) :
  (forall s, arg_page args = Some s -> is_ascii s = true -> int_literal s = None ->
     index args d = Raise ValueError) /\
  (forall rows,
     page_of args = Ok p ->
     load_csv (store d) = Ok rows ->
     Forall (fun r => is_Some (r !! 2%nat) /\
                      (arg_sort args = Some "score" ->
                       exists score, r !! 3%nat = Some score /\ is_ascii score = true /\
                                     is_Some (get_score_bucket score)))
            rows ->
     exists v, index args d = Ok v /\ page v = p /\
               (total_pages v < p -> cves v = [])) /\
  (snd (paginate all_cves p) < p -> fst (paginate all_cves p) = []) /\
  (length all_cves = 250%nat ->
   snd (paginate all_cves p) = 3 /\ fst (paginate all_cves 4) = []).
Proof.
  split; [| split; [| split]].
  - intros s Hs _ Hint. unfold index, page_of.
    rewrite Hs, (int_literal_None s Hint). reflexivity.
  - intros rows Hpage Hload Hrows.
    apply (index_returns args d p rows Hpage Hload).
    eapply Forall_impl; [exact Hrows |]. intros r [Hdate Hscore].
    split; [exact Hdate |]. intros Hsort.
    destruct (Hscore Hsort) as (score & Hfield & _ & Hbucket).
    unfold bucket_of. rewrite Hfield. exact Hbucket.
  - apply paginate_beyond_last.
  - intros Hlen.
    assert (Hpages : forall q, snd (paginate all_cves q) = 3).
    { intros q. unfold paginate, per_page. cbn [snd]. rewrite Hlen. reflexivity. }
    split; [apply Hpages |].
    apply paginate_beyond_last. rewrite Hpages. lia.
Qed.

Lemma pagination_beyond_last_is_empty_witness :
  index (page_request "x1") no_disk = Raise ValueError /\
  (exists v, index (page_request "4")
               {| store := Some (HEADER :: replicate 250 (stored "CVE-1" "2023-06-01" "N/A"));
                  stamp := None |} = Ok v /\ page v = 4) /\
  fst (paginate (replicate 250 (stored "CVE-1" "2023-06-01" "N/A")) 4) = [].
Proof.
  split; [| split].
  - destruct (pagination_beyond_last_is_empty (page_request "x1") no_disk [] 1)
      as (Hbad & _).
    apply (Hbad "x1"); reflexivity.
  - destruct (pagination_beyond_last_is_empty (page_request "4")
                {| store := Some (HEADER :: replicate 250 (stored "CVE-1" "2023-06-01" "N/A"));
                   stamp := None |} [] 4) as (_ & Hok & _).
    destruct (Hok (replicate 250 (stored "CVE-1" "2023-06-01" "N/A")))
      as (v & Hv & Hp & _).
    + reflexivity.
    + vm_compute. reflexivity.
    + apply Forall_forall. intros r Hr.
      apply elem_of_replicate in Hr as [-> _].
      split; [eexists; reflexivity | discriminate].
    + exists v. split; assumption.
  - destruct (pagination_beyond_last_is_empty (page_request "4") no_disk
                (replicate 250 (stored "CVE-1" "2023-06-01" "N/A")) 4)
      as (_ & _ & _ & H250).
    apply H250. apply length_replicate.
Defined.


(** * Further properties of the code *)

(** ** The feed parser *)

Lemma bind_Ok_inv {A B} (m : result A) (f : A -> result B) (b : B) :
  (m ≫= f) = Ok b -> exists a, m = Ok a /\ f a = Ok b.
Proof. destruct m as [a |]; [eauto | discriminate]. Qed.

Ltac bind_inv H :=
  repeat match type of H with
         | (_ ≫= _) = Ok _ =>
             let a := fresh "a" in
             let Ha := fresh "Ha" in
             apply bind_Ok_inv in H as (a & Ha & H)
         end.

Lemma map_result_Forall {A B} (f : A -> result B) (Q : B -> Prop)
    (l : list A) (l' : list B) :
  (forall x y, f x = Ok y -> Q y) ->
  map_result f l = Ok l' -> Forall Q l'.
Proof.
  intros HQ. revert l'. induction l as [| x l IH]; intros l' H; cbn [map_result] in H.
  - injection H as <-. constructor.
  - bind_inv H. injection H as <-. constructor; [eapply HQ; eassumption | eauto].
Qed.

Lemma map_result_raises {A B} (f : A -> result B) (l : list A) (x : A) (e : exn) :
  x ∈ l -> f x = Raise e -> raises (map_result f l) = true.
Proof.
  intros Hx Hf. destruct (map_result f l) as [l' |] eqn:Hl; [| reflexivity].
  destruct (map_result_elem f l l' x Hl Hx) as (y & Hy & _). congruence.
Qed.

Lemma parse_item_length (item : value) (r : list value) :
  parse_item item = Ok r -> length r = 4%nat.
Proof. unfold parse_item. intros H. bind_inv H. injection H as <-. reflexivity. Qed.

(** X1: whenever [parse_feed] returns, every record has exactly four
    fields, and when the document is an object whose ["CVE_Items"] is a
    list there is one record per entry. *)
Theorem parse_feed_record_shape (json_data : string) (rows : list (list value)) :
  parse_feed json_data = Ok rows ->
  Forall (fun r => length r = 4%nat) rows /\
  (forall d items,
     json_loads json_data = Ok (VDict d) ->
     dict_lookup "CVE_Items" d = Some (VList items) ->
     length rows = length items).
Proof.
  intros H. split.
  - unfold parse_feed in H. bind_inv H.
    eapply map_result_Forall; [| exact H]. intros x y. apply parse_item_length.
  - intros d items Hd Hitems.
    rewrite (parse_feed_of_dict _ _ Hd), Hitems in H. cbn in H.
    apply map_result_length in H. exact H.
Qed.

Lemma parse_feed_record_shape_witness :
  Forall (fun r => length r = 4%nat) [entry "CVE-2023-0001"].
Proof.
  assert (H : parse_feed one_entry_feed = Ok [entry "CVE-2023-0001"])
    by (vm_compute; reflexivity).
  exact (proj1 (parse_feed_record_shape one_entry_feed _ H)).
Defined.

(** X2: the parse is all or nothing: when one entry of the list cannot be
    parsed, [parse_feed] raises and returns no record at all, whatever the
    other entries are. *)
Theorem parse_feed_all_or_nothing (json_data : string) (d : list (string * value))
    (items : list value) (item : value) (e : exn) :
  json_loads json_data = Ok (VDict d) ->
  dict_lookup "CVE_Items" d = Some (VList items) ->
  item ∈ items ->
  parse_item item = Raise e ->
  raises (parse_feed json_data) = true.
Proof.
  intros Hd Hitems Hin He.
  rewrite (parse_feed_of_dict _ _ Hd), Hitems. cbn.
  exact (map_result_raises parse_item items item e Hin He).
Qed.

Lemma parse_feed_all_or_nothing_witness :
  raises (parse_feed half_broken_feed) = true.
Proof.
  apply (parse_feed_all_or_nothing half_broken_feed
           [("CVE_Items", VList [entry_value "CVE-2023-0001" None; VDict []])]
           [entry_value "CVE-2023-0001" None; VDict []] (VDict []) KeyError).
  - vm_compute. reflexivity.
  - reflexivity.
  - apply list_elem_of_further, list_elem_of_here.
  - reflexivity.
Defined.

(** X3: the score field of a parsed entry. Without an [impact] member,
    without a [baseMetricV3] member in it, or with a [baseMetricV3] that is
    null, empty or otherwise false, the score is the string "N/A"; with
    [impact.baseMetricV3.cvssV3.baseScore] present the score is that value
    as decoded, whatever its type. *)
Theorem parse_item_score (fields : list (string * value)) (r : list value) :
  parse_item (VDict fields) = Ok r ->
  (dict_lookup "impact" fields = None -> r !! 3%nat = Some (VStr "N/A")) /\
  (forall imp, dict_lookup "impact" fields = Some (VDict imp) ->
     dict_lookup "baseMetricV3" imp = None -> r !! 3%nat = Some (VStr "N/A")) /\
  (forall imp b, dict_lookup "impact" fields = Some (VDict imp) ->
     dict_lookup "baseMetricV3" imp = Some b -> truthy b = false ->
     r !! 3%nat = Some (VStr "N/A")) /\
  (forall imp m c v, dict_lookup "impact" fields = Some (VDict imp) ->
     dict_lookup "baseMetricV3" imp = Some (VDict m) -> m <> [] ->
     dict_lookup "cvssV3" m = Some (VDict c) ->
     dict_lookup "baseScore" c = Some v ->
     r !! 3%nat = Some v).
Proof.
  unfold parse_item. intros H. bind_inv H. injection H as <-.
  change ([a1; a6; a7; a10] !! 3%nat) with (Some a10).
  clear Ha Ha0 Ha1 Ha2 Ha3 Ha4 Ha5 Ha6 Ha7.
  unfold get in Ha8 at 1. injection Ha8 as <-.
  split; [| split; [| split]].
  - intros Himp. rewrite Himp in *. cbn in Ha9. injection Ha9 as <-.
    cbn in Ha10. injection Ha10 as <-; reflexivity.
  - intros imp Himp Hbase. rewrite Himp in *. cbn in Ha9.
    rewrite Hbase in Ha9. injection Ha9 as <-.
    cbn in Ha10. injection Ha10 as <-; reflexivity.
  - intros imp b Himp Hbase Hfalse. rewrite Himp in *. cbn in Ha9.
    rewrite Hbase in Ha9. cbn in Ha9. injection Ha9 as <-.
    rewrite Hfalse in Ha10. injection Ha10 as <-; reflexivity.
  - intros imp m c v Himp Hbase Hm Hcvss Hscore. rewrite Himp in *. cbn in Ha9.
    rewrite Hbase in Ha9. cbn in Ha9. injection Ha9 as <-.
    assert (Ht : truthy (VDict m) = true)
      by (destruct m; [contradiction | reflexivity]).
    rewrite Ht in Ha10. apply bind_Ok_inv in Ha10 as (cvss & Hc & Ha10).
    unfold get in Hc. rewrite Hcvss in Hc. injection Hc as <-.
    unfold get in Ha10. rewrite Hscore in Ha10.
    injection Ha10 as <-. reflexivity.
Qed.

Lemma parse_item_score_witness :
  (parse_item (entry_value "CVE-1" None) ≫= fun r => Ok (r !! 3%nat))
    = Ok (Some (VStr "N/A")) /\
  (parse_item (entry_value "CVE-1"
     (Some (VDict [("baseMetricV3",
                    VDict [("cvssV3", VDict [("baseScore", VInt 9)])])])))
     ≫= fun r => Ok (r !! 3%nat)) = Ok (Some (VInt 9)).
Proof.
  split.
  - destruct (parse_item (entry_value "CVE-1" None)) as [r |] eqn:Hr;
      [| vm_compute in Hr; discriminate].
    cbn. f_equal.
    exact (proj1 (parse_item_score _ r Hr) eq_refl).
  - destruct (parse_item (entry_value "CVE-1"
       (Some (VDict [("baseMetricV3",
                      VDict [("cvssV3", VDict [("baseScore", VInt 9)])])]))))
      as [r |] eqn:Hr; [| vm_compute in Hr; discriminate].
    cbn. f_equal.
    destruct (parse_item_score _ r Hr) as (_ & _ & _ & Hscore).
    eapply Hscore; [reflexivity | reflexivity | discriminate | reflexivity | reflexivity].
Defined.

(** X4: the errors of [parse_feed] on a whole document. It raises what
    [json.loads] raises; a document that is not an object has no [get] and
    raises [AttributeError]; an object whose ["CVE_Items"] is null, a
    number or a boolean cannot be iterated and raises [TypeError]. *)
Theorem parse_feed_document_errors (json_data : string) :
  (forall e, json_loads json_data = Raise e -> parse_feed json_data = Raise e) /\
  (forall v, json_loads json_data = Ok v -> (forall d, v <> VDict d) ->
     parse_feed json_data = Raise AttributeError) /\
  (forall d v, json_loads json_data = Ok (VDict d) ->
     dict_lookup "CVE_Items" d = Some v ->
     (forall l, v <> VList l) -> (forall s, v <> VStr s) -> (forall d', v <> VDict d') ->
     parse_feed json_data = Raise TypeError).
Proof.
  split; [| split].
  - intros e He. unfold parse_feed. rewrite He. reflexivity.
  - intros v Hv Hnot. unfold parse_feed. rewrite Hv. cbn.
    destruct v; try reflexivity. exfalso. eapply Hnot. reflexivity.
  - intros d v Hd Hv Hl Hs Hd'. rewrite (parse_feed_of_dict _ _ Hd), Hv. cbn.
    destruct v; try reflexivity; exfalso;
      [eapply Hs | eapply Hl | eapply Hd']; reflexivity.
Qed.

Lemma parse_feed_document_errors_witness :
  parse_feed "[]" = Raise AttributeError /\
  parse_feed "{" = Raise JSONDecodeError /\
  parse_feed ("{" ++ quoted "CVE_Items" ++ ": null}") = Raise TypeError.
Proof.
  split; [| split].
  - destruct (parse_feed_document_errors "[]") as (_ & Hobj & _).
    apply (Hobj (VList [])); [vm_compute; reflexivity | discriminate].
  - destruct (parse_feed_document_errors "{") as (Hdec & _).
    apply Hdec. vm_compute. reflexivity.
  - destruct (parse_feed_document_errors ("{" ++ quoted "CVE_Items" ++ ": null}"))
      as (_ & _ & Hiter).
    apply (Hiter [("CVE_Items", VNone)] VNone);
      [vm_compute; reflexivity | reflexivity | discriminate ..].
Defined.

(** ** The record store *)

Lemma filter_result_sublist {A} (p : A -> result bool) (l l' : list A) :
  filter_result p l = Ok l' -> l' `sublist_of` l.
Proof.
  revert l'. induction l as [| x l IH]; intros l' H; cbn [filter_result] in H.
  - injection H as <-. constructor.
  - bind_inv H. injection H as <-.
    destruct a; [apply sublist_skip | apply sublist_cons]; eauto.
Qed.

Lemma filter_result_elem {A} (p : A -> result bool) (l l' : list A) (x : A) :
  filter_result p l = Ok l' -> x ∈ l -> exists b, p x = Ok b.
Proof.
  revert l'. induction l as [| y l IH]; intros l' H Hx.
  - apply elem_of_nil in Hx. contradiction.
  - cbn [filter_result] in H. bind_inv H.
    apply elem_of_cons in Hx as [-> | Hx]; eauto.
Qed.

Lemma appends_app (py_str : value -> string)
    (batches batches' : list (list (list value))) (f : file) :
  appends py_str (batches ++ batches')%list f =
  appends py_str batches' (appends py_str batches f).
Proof. unfold appends. apply fold_left_app. Qed.

(** A blank row stops the loop, unless a field over the limit stops it
    first. *)
Lemma add_ids_blank (ids : gset string) (rows : list row) :
  [] ∈ rows ->
  exists e, add_ids ids rows = Raise e /\
    (e = IndexError \/ e = CsvError) /\
    (Forall (fun r => within_limit r = true) rows -> e = IndexError).
Proof.
  revert ids. induction rows as [| r rows IH]; intros ids Hin.
  - apply elem_of_nil in Hin. contradiction.
  - cbn [add_ids]. unfold read_row. destruct (within_limit r) eqn:Hr.
    + destruct r as [| c r].
      * exists IndexError. split; [reflexivity |]. split; [left; reflexivity | reflexivity].
      * apply elem_of_cons in Hin as [[=] | Hin]. cbn.
        destruct (IH ({[c]} ∪ ids) Hin) as (e & He & Hclass & Hlim).
        exists e. split; [exact He |]. split; [exact Hclass |].
        intros [_ Hrows]%Forall_cons. exact (Hlim Hrows).
    + exists CsvError. split; [reflexivity |]. split; [right; reflexivity |].
      intros [Hr' _]%Forall_cons. congruence.
Qed.

Lemma load_ids_blank (f : file) :
  [] ∈ data_rows f ->
  exists e, load_ids f = Raise e /\
    (e = IndexError \/ e = CsvError) /\
    (Forall (fun r => within_limit r = true) (all_rows f) -> e = IndexError).
Proof.
  destruct f as [[| h rows] |]; cbn [data_rows]; intros Hin.
  - apply elem_of_nil in Hin. contradiction.
  - cbn in Hin. rewrite drop_0 in Hin.
    cbn [load_ids skip_header all_rows default]. unfold read_row.
    destruct (within_limit h) eqn:Hh; cbn.
    + destruct (add_ids_blank ∅ rows Hin) as (e & He & Hclass & Hlim).
      exists e. split; [exact He |]. split; [exact Hclass |].
      intros [_ Hrows]%Forall_cons. exact (Hlim Hrows).
    + exists CsvError. split; [reflexivity |]. split; [right; reflexivity |].
      intros [Hh' _]%Forall_cons. congruence.
  - apply elem_of_nil in Hin. contradiction.
Qed.

(** One call only appends, whatever the file and the batch. *)
Lemma save_to_csv_extends (py_str : value -> string)
    (new_data : list (list value)) (f : file) :
  match f with
  | Some rows =>
      exists written, fst (save_to_csv py_str new_data f) = Some (rows ++ written)%list
  | None =>
      fst (save_to_csv py_str new_data f) = None \/
      exists written, fst (save_to_csv py_str new_data f) = Some (HEADER :: written)
  end.
Proof.
  unfold save_to_csv.
  destruct (load_ids f) as [ids |].
  - destruct (filter_result _ new_data) as [u |]; cbn [fst].
    + destruct f as [rows |]; [eauto | right; eauto].
    + destruct f as [rows |]; [exists []; rewrite app_nil_r; reflexivity | left; reflexivity].
  - cbn [fst].
    destruct f as [rows |]; [exists []; rewrite app_nil_r; reflexivity | left; reflexivity].
Qed.

(** X5: [save_to_csv] only ever appends. After any sequence of calls
    starting from no file, one more call, whatever its batch and whether
    it returns or raises, keeps all the rows of the file, in place, at the
    head of the file; where there was still no file, there is none after
    the call or one that starts with the header row. *)
Theorem save_to_csv_only_appends (py_str : value -> string)
    (batches : list (list (list value))) (new_data : list (list value)) :
  match appends py_str batches None with
  | Some rows =>
      exists written,
        appends py_str (batches ++ [new_data])%list None = Some (rows ++ written)%list
  | None =>
      appends py_str (batches ++ [new_data])%list None = None \/
      exists written,
        appends py_str (batches ++ [new_data])%list None = Some (HEADER :: written)
  end.
Proof.
  rewrite appends_app. cbn [appends fold_left].
  fold (appends py_str batches None).
  apply save_to_csv_extends.
Qed.

(** When the call returns, the whole batch that passed the filter is
    written. *)
Lemma save_to_csv_returns (py_str : value -> string)
    (new_data : list (list value)) (f : file) (n : Z) :
  snd (save_to_csv py_str new_data f) = Ok n ->
  exists unique_data,
    unique_data `sublist_of` new_data /\
    n = Z.of_nat (length unique_data) /\
    fst (save_to_csv py_str new_data f) =
      Some (match f with
            | None => HEADER :: (csv_row py_str <$> unique_data)
            | Some rows => (rows ++ (csv_row py_str <$> unique_data))%list
            end).
Proof.
  unfold save_to_csv.
  destruct (load_ids f) as [ids |]; [| discriminate].
  destruct (filter_result _ new_data) as [u |] eqn:Hu; [| discriminate].
  cbn [fst snd].
  destruct (writerows_fmap (csv_row py_str) u) as (u' & k & Hk & Hw & [[Hs ->] | Hs]);
    rewrite Hs; cbn; [| discriminate].
  intros [= <-]. rewrite app_nil_r in Hk. subst u'.
  apply filter_result_sublist in Hu.
  exists u. split; [exact Hu |]. split; [reflexivity |].
  rewrite Hw. reflexivity.
Qed.

(** X6: when [save_to_csv] returns [n], on a store left by earlier calls
    starting from no file, it has written exactly [n] rows (after the
    header when it creates the file), and they are the renderings of a
    subsequence of the batch, in batch order: nothing is written that was
    not in the batch. *)
Theorem save_to_csv_count (py_str : value -> string)
    (batches : list (list (list value))) (new_data : list (list value)) (n : Z) :
  snd (save_to_csv py_str new_data (appends py_str batches None)) = Ok n ->
  exists unique_data,
    unique_data `sublist_of` new_data /\
    n = Z.of_nat (length unique_data) /\
    0 <= n <= Z.of_nat (length new_data) /\
    fst (save_to_csv py_str new_data (appends py_str batches None)) =
      Some (match appends py_str batches None with
            | None => HEADER :: (csv_row py_str <$> unique_data)
            | Some rows => (rows ++ (csv_row py_str <$> unique_data))%list
            end).
Proof.
  intros Hn.
  destruct (save_to_csv_returns py_str new_data _ n Hn) as (u & Hsub & Hlen & Hfile).
  exists u. split; [exact Hsub |]. split; [exact Hlen |]. split; [| exact Hfile].
  apply sublist_length in Hsub. lia.
Qed.

Lemma save_to_csv_count_witness :
  exists unique_data,
    unique_data `sublist_of` [entry "CVE-1"; entry "CVE-2"] /\
    1 = Z.of_nat (length unique_data).
Proof.
  destruct (save_to_csv_count no_str [[entry "CVE-1"]] [entry "CVE-1"; entry "CVE-2"] 1)
    as (u & Hsub & Hn & _).
  - vm_compute. reflexivity.
  - exists u. split; assumption.
Defined.

(** X7: what makes [save_to_csv] raise before it writes, and what it
    leaves behind. A blank row in the stored file makes the call raise:
    [IndexError] when the rows of the file are within the reader's field
    limit, and otherwise [IndexError] or [csv.Error], whichever row comes
    first. The call also raises when a batch row is empty or has a list
    or a dict as its first field. In each case the file is exactly as it
    was. *)
Theorem save_to_csv_raises_untouched (py_str : value -> string)
    (new_data : list (list value)) (f : file) :
  ([] ∈ data_rows f ->
   exists e, save_to_csv py_str new_data f = (f, Raise e) /\
     (e = IndexError \/ e = CsvError) /\
     (Forall (fun r => within_limit r = true) (all_rows f) -> e = IndexError)) /\
  (forall r, r ∈ new_data ->
     r = [] \/ (exists l rest, r = VList l :: rest) \/ (exists d rest, r = VDict d :: rest) ->
     exists e, save_to_csv py_str new_data f = (f, Raise e)).
Proof.
  split.
  - intros Hblank. unfold save_to_csv.
    destruct (load_ids_blank f Hblank) as (e & -> & Hclass & Hlim).
    exists e. split; [reflexivity |]. split; assumption.
  - intros r Hr Hbad. unfold save_to_csv.
    destruct (load_ids f) as [ids |]; [| eauto].
    destruct (filter_result _ new_data) as [u |] eqn:Hu; [| eauto].
    destruct (filter_result_elem _ _ _ r Hu Hr) as [b Hb].
    destruct Hbad as [-> | [(l & rest & ->) | (d & rest & ->)]]; discriminate.
Qed.

Lemma save_to_csv_raises_untouched_witness :
  save_to_csv no_str [entry "CVE-1"] (Some [HEADER; stored "CVE-0" "2023-06-01" "N/A"; []])
  = (Some [HEADER; stored "CVE-0" "2023-06-01" "N/A"; []], Raise IndexError) /\
  exists e, save_to_csv no_str [entry "CVE-1"; [VList []; VStr "x"]] None = (None, Raise e).
Proof.
  split.
  - destruct (proj1 (save_to_csv_raises_untouched no_str [entry "CVE-1"]
                       (Some [HEADER; stored "CVE-0" "2023-06-01" "N/A"; []])))
      as (e & Hcall & _ & He).
    + apply list_elem_of_further, list_elem_of_here.
    + rewrite Hcall, He; [reflexivity |].
      repeat (apply List.Forall_cons; [vm_compute; reflexivity |]). apply List.Forall_nil.
  - apply (proj2 (save_to_csv_raises_untouched no_str
                    [entry "CVE-1"; [VList []; VStr "x"]] None) [VList []; VStr "x"]).
    + apply list_elem_of_further, list_elem_of_here.
    + right. left. eauto.
Defined.

(** X8: [load_csv] after [save_to_csv]. On a store left by earlier calls
    on plain records, starting from no file, [load_csv] returns the rows
    after the header; after one more call on a batch of plain records it
    returns the same rows followed by the renderings of the records whose
    identifier was not stored, in batch order. *)
Theorem load_csv_after_save (py_str : value -> string)
    (batches : list (list (list value))) (new_data : list (list value)) :
  plain_batches py_str batches ->
  Forall (plain_record py_str) new_data ->
  load_csv (appends py_str batches None) = Ok (data_rows (appends py_str batches None)) /\
  load_csv (fst (save_to_csv py_str new_data (appends py_str batches None))) =
    Ok (data_rows (appends py_str batches None) ++
        (csv_row py_str <$>
           filter (fun r => is_novel (stored_ids (appends py_str batches None)) r)
                  new_data))%list.
Proof.
  intros Hbatches Hnew.
  pose proof (kept_store_readable py_str batches Hbatches) as Hf.
  destruct (save_to_csv_keeps_readable py_str new_data _ Hf Hnew) as ((_ & Hlim1 & _) & _).
  split.
  - apply load_csv_Ok. exact (proj1 (proj2 Hf)).
  - rewrite (load_csv_Ok _ Hlim1). f_equal.
    rewrite (save_to_csv_spec py_str new_data _ Hnew Hf). cbn [fst].
    exact (data_rows_after _ HEADER _ (proj1 Hf)).
Qed.

Lemma load_csv_after_save_witness :
  load_csv (fst (save_to_csv no_str [entry "CVE-1"; entry "CVE-2"]
                   (appends no_str [[entry "CVE-1"]] None))) =
  Ok [["CVE-1"; "Remote code execution"; "2023-06-01T00:00Z"; "N/A"];
      ["CVE-2"; "Remote code execution"; "2023-06-01T00:00Z"; "N/A"]].
Proof.
  destruct (load_csv_after_save no_str [[entry "CVE-1"]] [entry "CVE-1"; entry "CVE-2"])
    as (_ & Hload).
  - plain.
  - plain.
  - rewrite Hload. vm_compute. reflexivity.
Defined.

Lemma appends_ids (py_str : value -> string)
    (batches : list (list (list value))) (f : file) (s : string) :
  plain_batches py_str batches ->
  readable f ->
  s ∈ stored_ids (appends py_str batches f) <->
  s ∈ stored_ids f \/ exists b, b ∈ batches /\ s ∈ omap record_id b.
Proof.
  intros Hbatches. revert f.
  induction Hbatches as [| b batches Hb _ IH]; intros f Hf.
  - cbn. split; [auto |]. intros [H | (b & Hb & _)]; [exact H |].
    apply elem_of_nil in Hb. contradiction.
  - cbn [appends fold_left].
    destruct (save_to_csv_keeps_readable py_str b f Hf Hb) as (Hf' & Hids).
    fold (appends py_str batches (fst (save_to_csv py_str b f))).
    rewrite (IH _ Hf'), Hids, elem_of_app, filter_novel_ids.
    split.
    + intros [[H | [H _]] | (b' & Hb' & H)].
      * left. exact H.
      * right. exists b. split; [apply list_elem_of_here | exact H].
      * right. exists b'. split; [apply list_elem_of_further, Hb' | exact H].
    + intros [H | (b' & Hb' & H)]; [left; left; exact H |].
      apply elem_of_cons in Hb' as [-> | Hb'].
      * left. destruct (decide (s ∈ stored_ids f)); [left | right]; auto.
      * right. exists b'. split; assumption.
Qed.

(** X9: no identifier is lost. After any sequence of [save_to_csv] calls
    from a nonexistent store, with batches of plain records (a string
    identifier first, every field encodable and within the reader's
    limit), the identifiers in the store are exactly the identifiers that
    occurred in some batch. *)
Theorem store_holds_every_identifier (py_str : value -> string)
    (batches : list (list (list value))) (s : string) :
  plain_batches py_str batches ->
  s ∈ stored_ids (appends py_str batches None) <->
  exists b, b ∈ batches /\ s ∈ omap record_id b.
Proof.
  intros Hbatches.
  rewrite (appends_ids py_str batches None s Hbatches readable_None).
  split; [| auto]. intros [H | H]; [| exact H].
  apply elem_of_nil in H. contradiction.
Qed.

Lemma store_holds_every_identifier_witness :
  "D" ∈ stored_ids (appends no_str
                      [[entry "A"; entry "B"; entry "C"];
                       [entry "B"; entry "C"; entry "D"]] None).
Proof.
  apply (store_holds_every_identifier no_str
           [[entry "A"; entry "B"; entry "C"]; [entry "B"; entry "C"; entry "D"]] "D").
  - plain.
  - exists [entry "B"; entry "C"; entry "D"]. split.
    + apply list_elem_of_further, list_elem_of_here.
    + cbn. do 2 apply list_elem_of_further. apply list_elem_of_here.
Defined.

Lemma filter_ext_elem {A} (P Q : A -> Prop)
    `{forall x, Decision (P x)} `{forall x, Decision (Q x)} (l : list A) :
  (forall x, x ∈ l -> P x <-> Q x) -> filter P l = filter Q l.
Proof.
  induction l as [| x l IH]; intros HPQ; [reflexivity |].
  rewrite !filter_cons, IH.
  - pose proof (HPQ x (list_elem_of_here _ _)).
    destruct (decide (P x)), (decide (Q x)); tauto || reflexivity.
  - intros y Hy. apply HPQ, list_elem_of_further, Hy.
Qed.

(** X10: splitting a batch. On a store left by earlier calls on plain
    records, starting from no file, two successive calls with batches of
    plain records that share no identifier leave the same store as one
    call with the two batches joined. *)
Theorem save_to_csv_split_batch (py_str : value -> string)
    (batches : list (list (list value))) (b1 b2 : list (list value)) :
  plain_batches py_str batches ->
  Forall (plain_record py_str) b1 ->
  Forall (plain_record py_str) b2 ->
  (forall s, s ∈ omap record_id b1 -> s ∉ omap record_id b2) ->
  appends py_str (batches ++ [b1; b2])%list None =
  appends py_str (batches ++ [b1 ++ b2])%list None.
Proof.
  intros Hbatches Hb1 Hb2 Hdisj. rewrite !appends_app.
  pose proof (kept_store_readable py_str batches Hbatches) as Hf.
  set (f := appends py_str batches None) in *.
  cbn [appends fold_left].
  destruct (save_to_csv_keeps_readable py_str b1 f Hf Hb1) as (Hf1 & Hids1).
  rewrite (save_to_csv_spec py_str b2 _ Hb2 Hf1), Hids1.
  rewrite (save_to_csv_spec py_str (b1 ++ b2)%list f); [| apply Forall_app; auto | exact Hf].
  rewrite (save_to_csv_spec py_str b1 f Hb1 Hf). cbn [fst].
  rewrite filter_app, fmap_app.
  assert (Hsame :
    filter (fun r => is_novel
              (stored_ids f ++
               omap record_id (filter (fun r' => is_novel (stored_ids f) r') b1))%list r) b2
    = filter (fun r => is_novel (stored_ids f) r) b2).
  { apply filter_ext_elem. intros r Hr.
    rewrite Forall_forall in Hb2. destruct (Hb2 r Hr) as ([s Hs] & _).
    unfold is_novel. rewrite Hs.
    rewrite !bool_decide_spec. split.
    - intros Hnot Hin. apply Hnot, elem_of_app. left. exact Hin.
    - intros Hnot [H | H]%elem_of_app; [exact (Hnot H) |].
      apply filter_novel_ids in H as [H _].
      apply (Hdisj s H). apply list_elem_of_omap. exists r. split; assumption. }
  rewrite Hsame.
  destruct f as [rows |]; cbn; rewrite ?app_assoc; reflexivity.
Qed.

Lemma save_to_csv_split_batch_witness :
  appends no_str ([] ++ [[entry "A"; entry "B"]; [entry "C"]])%list None =
  appends no_str ([] ++ [[entry "A"; entry "B"] ++ [entry "C"]])%list None.
Proof.
  apply (save_to_csv_split_batch no_str [] [entry "A"; entry "B"] [entry "C"]).
  - plain.
  - plain.
  - plain.
  - intros s Hs Hc. cbn in Hs, Hc.
    apply list_elem_of_singleton in Hc as ->.
    rewrite !elem_of_cons, elem_of_nil in Hs.
    destruct Hs as [[=] | [[=] | []]].
Defined.

(** X21: an identifier that is not a string is never recognised as
    stored. On a store left by earlier calls on plain records, starting
    from no file, a record whose first field is a number, a boolean or
    null, and whose fields can be encoded, is written by the call, even
    when the store already holds a row with the same rendering, because
    the stored identifiers are strings and such a value equals none of
    them. *)
Theorem save_to_csv_non_string_id (py_str : value -> string)
    (batches : list (list (list value))) (v : value) (rest : list value) :
  plain_batches py_str batches ->
  (v = VNone \/ (exists b, v = VBool b) \/ (exists n, v = VInt n) \/
   (exists x, v = VFloat x)) ->
  row_encodable (csv_row py_str (v :: rest)) = true ->
  save_to_csv py_str [v :: rest] (appends py_str batches None) =
    (Some (match appends py_str batches None with
           | None => [HEADER; csv_row py_str (v :: rest)]
           | Some rows => (rows ++ [csv_row py_str (v :: rest)])%list
           end), Ok 1).
Proof.
  intros Hbatches Hv Henc.
  destruct (kept_store_readable py_str batches Hbatches) as (_ & Hlim & Hrows).
  unfold save_to_csv.
  destruct (load_ids_Ok _ Hlim Hrows) as (ids & -> & _).
  assert (Hkeep : filter_result (fun r => v' ← getitem r 0; not_in v' ids) [v :: rest]
                  = Ok [v :: rest])
    by (destruct Hv as [-> | [[b ->] | [[n ->] | [x ->]]]]; reflexivity).
  rewrite Hkeep. cbn [fmap list_fmap writerows]. rewrite Henc. reflexivity.
Qed.

Lemma save_to_csv_non_string_id_witness :
  save_to_csv (fun _ => "7") [[VInt 7; VStr "d"]]
    (appends (fun _ => "7") [[[VStr "7"; VStr "d"]]] None) =
    (Some [HEADER; ["7"; "d"]; ["7"; "d"]], Ok 1).
Proof.
  rewrite (save_to_csv_non_string_id (fun _ => "7") [[[VStr "7"; VStr "d"]]]
             (VInt 7) [VStr "d"]).
  - vm_compute. reflexivity.
  - plain.
  - right. right. left. eauto.
  - vm_compute. reflexivity.
Defined.

(** ** The refresh orchestration *)

Lemma run_tracker_Added_inv (py_str : value -> string) (w : env) (d d' : disk) (n : Z) :
  run_tracker py_str w d = (d', Added n) <->
  exists raw results,
    download_feed w = Ok raw /\ parse_feed raw = Ok results /\
    save_to_csv py_str results (store d) = (store d', Ok n) /\
    stamp_writable w = true /\ stamp d' = Some (now w).
Proof.
  unfold run_tracker, save_last_updated, stamp_writable. split.
  - destruct (download_feed w) as [raw |] eqn:Hraw; [| discriminate].
    destruct (parse_feed raw) as [results |] eqn:Hresults; [| discriminate].
    destruct (save_to_csv py_str results (store d)) as [f' [m |]] eqn:Hsave;
      [| discriminate].
    destruct (stamp_write w); [| discriminate | discriminate].
    intros [= <- <-]. exists raw, results. repeat split; assumption.
  - intros (raw & results & -> & -> & -> & Hw & Hstamp).
    destruct (stamp_write w); [| discriminate | discriminate].
    destruct d' as [f' t']. cbn in *. subst. reflexivity.
Qed.

(** An error reported without the timestamp file having been opened
    leaves that file as it was. *)
Lemma run_tracker_Error_stamp (py_str : value -> string) (w : env) (d : disk) (e : exn) :
  snd (run_tracker py_str w d) = Error e ->
  (forall kept, stamp_write w <> Truncated kept) ->
  stamp (fst (run_tracker py_str w d)) = stamp d.
Proof.
  unfold run_tracker. intros He Hopen.
  destruct (download_feed w) as [raw |]; [| reflexivity].
  destruct (parse_feed raw) as [results |]; [| reflexivity].
  destruct (save_to_csv py_str results (store d)) as [f' [n |]]; [| reflexivity].
  unfold save_last_updated in *.
  destruct (stamp_write w) as [| | kept]; [discriminate | reflexivity |].
  destruct (Hopen kept eq_refl).
Qed.

(** X11: the time shown as last update follows the outcome of the
    refresh. After a refresh that reports added records it is the clock
    value of that refresh (stripped, as [load_last_updated] does). After
    a refresh that reports an error it is what it was before ("Never" if
    there was no timestamp file), unless the timestamp file had been
    opened for writing: when the write then fails with nothing written,
    the file is left empty and the time shown is the empty text. *)
Theorem last_updated_after_refresh (py_str : value -> string) (w : env) (d : disk) :
  (forall n, snd (run_tracker py_str w d) = Added n ->
     load_last_updated (stamp (fst (run_tracker py_str w d))) = strip (now w)) /\
  (forall e, snd (run_tracker py_str w d) = Error e ->
     (forall kept, stamp_write w <> Truncated kept) ->
     load_last_updated (stamp (fst (run_tracker py_str w d)))
     = load_last_updated (stamp d) /\
     (stamp d = None ->
      load_last_updated (stamp (fst (run_tracker py_str w d))) = "Never")) /\
  (forall raw results n,
     download_feed w = Ok raw -> parse_feed raw = Ok results ->
     snd (save_to_csv py_str results (store d)) = Ok n ->
     stamp_write w = Truncated 0 ->
     snd (run_tracker py_str w d) = Error OSError /\
     load_last_updated (stamp (fst (run_tracker py_str w d))) = "").
Proof.
  split; [| split].
  - intros n Hn.
    destruct (run_tracker py_str w d) as [d' msg] eqn:Hrun. cbn in Hn. subst msg.
    apply run_tracker_Added_inv in Hrun as (_ & _ & _ & _ & _ & _ & Hstamp).
    cbn [fst]. rewrite Hstamp. reflexivity.
  - intros e He Hopen. rewrite (run_tracker_Error_stamp py_str w d e He Hopen).
    split; [reflexivity |]. intros ->. reflexivity.
  - intros raw results n Hraw Hresults Hsave Hw. unfold run_tracker.
    rewrite Hraw, Hresults.
    destruct (save_to_csv py_str results (store d)) as [f' r]. cbn in Hsave. subst r.
    rewrite Hw. split; reflexivity.
Qed.

Lemma last_updated_after_refresh_witness :
  load_last_updated (stamp (fst (run_tracker no_str fresh_env no_disk)))
    = "2024-01-01 00:00:00" /\
  load_last_updated (stamp (fst (run_tracker no_str stale_stamp_env no_disk))) = "Never" /\
  load_last_updated
    (stamp (fst (run_tracker no_str truncated_stamp_env
                   {| store := None; stamp := Some "2023-12-31 00:00:00" |}))) = "".
Proof.
  destruct (last_updated_after_refresh no_str fresh_env no_disk) as (Hok & _).
  destruct (last_updated_after_refresh no_str stale_stamp_env no_disk) as (_ & Hfail & _).
  destruct (last_updated_after_refresh no_str truncated_stamp_env
              {| store := None; stamp := Some "2023-12-31 00:00:00" |}) as (_ & _ & Hcut).
  split; [| split].
  - rewrite (Hok 1); [vm_compute; reflexivity | vm_compute; reflexivity].
  - apply (Hfail OSError); [vm_compute; reflexivity | discriminate | reflexivity].
  - apply (Hcut one_entry_feed [entry "CVE-2023-0001"] 1).
    + reflexivity.
    + vm_compute. reflexivity.
    + vm_compute. reflexivity.
    + reflexivity.
Defined.

(** X12: [run_tracker] reports added records exactly when all four stages
    succeed; the count is the one [save_to_csv] returned on the parsed
    feed, the store is the one that call left, and the timestamp file
    holds the clock value of this refresh. *)
Theorem run_tracker_success (py_str : value -> string) (w : env) (d d' : disk) (n : Z) :
  run_tracker py_str w d = (d', Added n) <->
  exists raw results,
    download_feed w = Ok raw /\ parse_feed raw = Ok results /\
    save_to_csv py_str results (store d) = (store d', Ok n) /\
    stamp_writable w = true /\ stamp d' = Some (now w).
Proof. apply run_tracker_Added_inv. Qed.



(** X14: a response whose status is not 200 is never decompressed or
    parsed: [download_feed] raises with the status code, and [run_tracker]
    returns that failure and leaves the store and the timestamp file as
    they were. An exception of [requests.get] itself is reported the same
    way. *)
Theorem run_tracker_bad_status (py_str : value -> string) (w : env) (d : disk) :
  (forall resp, requests_get w = Ok resp -> status_code resp <> 200 ->
     download_feed w = Raise (DownloadFailed (status_code resp)) /\
     run_tracker py_str w d = (d, Error (DownloadFailed (status_code resp)))) /\
  (forall e, requests_get w = Raise e -> run_tracker py_str w d = (d, Error e)).
Proof.
  split.
  - intros resp Hresp Hstatus.
    assert (Hdown : download_feed w = Raise (DownloadFailed (status_code resp))).
    { unfold download_feed. rewrite Hresp. cbn.
      apply Z.eqb_neq in Hstatus. rewrite Hstatus. reflexivity. }
    split; [exact Hdown |]. unfold run_tracker. rewrite Hdown. reflexivity.
  - intros e He. unfold run_tracker, download_feed. rewrite He. reflexivity.
Qed.

Lemma run_tracker_bad_status_witness :
  run_tracker no_str unavailable_env no_disk = (no_disk, Error (DownloadFailed 503)).
Proof.
  destruct (run_tracker_bad_status no_str unavailable_env no_disk) as (Hstatus & _).
  destruct (Hstatus {| status_code := 503; content := "" |}) as (_ & Hrun).
  - reflexivity.
  - discriminate.
  - exact Hrun.
Defined.

(** ** The query engine *)

Lemma paginate_page (all_cves : list row) (p : Z) :
  1 <= p ->
  fst (paginate all_cves p) = take 100 (drop (Z.to_nat (100 * (p - 1))) all_cves).
Proof.
  intros Hp. unfold paginate, py_slice, per_page. cbn [fst].
  set (n := Z.of_nat (length all_cves)).
  assert (Hn : 0 <= n) by (unfold n; lia).
  replace ((p - 1) * 100 <? 0) with false by (symmetry; apply Z.ltb_ge; lia).
  replace ((p - 1) * 100 + 100 <? 0) with false by (symmetry; apply Z.ltb_ge; lia).
  destruct (Z.le_gt_cases n ((p - 1) * 100)) as [Hbig | Hsmall].
  - rewrite !drop_ge by (unfold n in *; lia). rewrite !take_nil. reflexivity.
  - replace (Z.min ((p - 1) * 100) n) with (100 * (p - 1)) by lia.
    set (k := Z.to_nat (100 * (p - 1))).
    assert (Hlen : length (drop k all_cves) = (length all_cves - k)%nat)
      by apply length_drop.
    destruct (Z.le_gt_cases ((p - 1) * 100 + 100) n) as [Hfull | Hpart].
    + replace (Z.min ((p - 1) * 100 + 100) n - 100 * (p - 1)) with 100 by lia.
      reflexivity.
    + replace (Z.min ((p - 1) * 100 + 100) n - 100 * (p - 1))
        with (n - 100 * (p - 1)) by lia.
      rewrite !take_ge; [reflexivity | |]; rewrite Hlen; unfold n, k in *; lia.
Qed.

(** X15: the pages cut the sorted list into consecutive runs of 100. For
    a page number [p] of at least 1, the page has at most 100 rows and its
    row at position [j] is the row at position [100 * (p - 1) + j] of the
    list, so every row of the list is on exactly the page its rank gives. *)
Theorem paginate_page_rows (all_cves : list row) (p : Z) (j : nat) :
  1 <= p ->
  (length (fst (paginate all_cves p)) <= 100)%nat /\
  ((j < 100)%nat ->
   fst (paginate all_cves p) !! j = all_cves !! (Z.to_nat (100 * (p - 1)) + j)%nat) /\
  ((100 <= j)%nat -> fst (paginate all_cves p) !! j = None).
Proof.
  intros Hp. rewrite (paginate_page all_cves p Hp). split; [| split].
  - rewrite length_take. lia.
  - intros Hj. rewrite lookup_take_lt by exact Hj. apply lookup_drop.
  - intros Hj. apply lookup_take_ge. exact Hj.
Qed.

Lemma paginate_page_rows_witness :
  fst (paginate (replicate 150 (stored "CVE-1" "2023-06-01" "N/A")) 2) !! 49%nat
  = replicate 150 (stored "CVE-1" "2023-06-01" "N/A") !! 149%nat.
Proof.
  destruct (paginate_page_rows (replicate 150 (stored "CVE-1" "2023-06-01" "N/A")) 2 49)
    as (_ & Hrow & _); [lia |].
  rewrite Hrow by lia. reflexivity.
Defined.

(** X16: the page count is the number of rows divided by 100, rounded
    up: it does not depend on the page asked for, no rows give 0 pages,
    and every page from 1 to the page count is non-empty. *)
Theorem paginate_page_count (all_cves : list row) (p : Z) :
  100 * (snd (paginate all_cves p) - 1) < Z.of_nat (length all_cves)
    <= 100 * snd (paginate all_cves p) /\
  (all_cves = [] -> snd (paginate all_cves p) = 0) /\
  (1 <= p <= snd (paginate all_cves p) -> fst (paginate all_cves p) <> []).
Proof.
  assert (Hcount : 100 * (snd (paginate all_cves p) - 1) < Z.of_nat (length all_cves)
                   <= 100 * snd (paginate all_cves p)).
  { unfold paginate, per_page. cbn [snd].
    pose proof (Z.div_mod (Z.of_nat (length all_cves) + 100 - 1) 100 ltac:(lia)).
    pose proof (Z.mod_pos_bound (Z.of_nat (length all_cves) + 100 - 1) 100 ltac:(lia)).
    lia. }
  split; [exact Hcount |]. split.
  - intros ->. reflexivity.
  - intros [Hp Hlast]. rewrite (paginate_page all_cves p Hp).
    intros Hnil. apply (f_equal length) in Hnil.
    rewrite length_take, length_drop in Hnil.
    change (length (@nil row)) with 0%nat in Hnil. lia.
Qed.

Lemma paginate_page_count_witness :
  fst (paginate (replicate 250 (stored "CVE-1" "2023-06-01" "N/A")) 3) <> [].
Proof.
  apply (paginate_page_count (replicate 250 (stored "CVE-1" "2023-06-01" "N/A")) 3).
  vm_compute. split; discriminate.
Defined.

Lemma insert_sorted_perm {K A} (lt : K -> K -> result bool)
    (x : K * A) (l s : list (K * A)) :
  insert_sorted lt x l = Ok s -> s ≡ₚ x :: l.
Proof.
  revert s. induction l as [| y l IH]; intros s H; cbn [insert_sorted] in H.
  - injection H as <-. reflexivity.
  - apply bind_Ok_inv in H as (before & _ & H). destruct before.
    + apply bind_Ok_inv in H as (s' & Hs' & H). injection H as <-.
      rewrite (IH _ Hs'). apply perm_swap.
    + injection H as <-. reflexivity.
Qed.

Lemma stable_sort_perm {K A} (lt : K -> K -> result bool) (l s : list (K * A)) :
  stable_sort lt l = Ok s -> s ≡ₚ l.
Proof.
  revert s. induction l as [| x l IH]; intros s H; cbn [stable_sort] in H.
  - injection H as <-. reflexivity.
  - apply bind_Ok_inv in H as (s' & Hs' & H).
    rewrite (insert_sorted_perm _ _ _ _ H), (IH _ Hs'). reflexivity.
Qed.

Lemma map_result_keyed {K A} (key : A -> result K) (l : list A) (keyed : list (K * A)) :
  map_result (fun x => k ← key x; Ok (k, x)) l = Ok keyed -> snd <$> keyed = l.
Proof.
  revert keyed. induction l as [| x l IH]; intros keyed H; cbn [map_result] in H.
  - injection H as <-. reflexivity.
  - apply bind_Ok_inv in H as (y & Hy & H).
    apply bind_Ok_inv in H as (ys & Hys & H). injection H as <-.
    apply bind_Ok_inv in Hy as (k & _ & Hy). injection Hy as <-.
    cbn. f_equal. apply IH. exact Hys.
Qed.

(** A sort that returns has rearranged its input, whatever the keys. *)
Lemma list_sort_perm {K A} (lt : K -> K -> result bool) (key : A -> result K)
    (descending : bool) (l out : list A) :
  list_sort lt key descending l = Ok out -> out ≡ₚ l.
Proof.
  unfold list_sort. intros H.
  apply bind_Ok_inv in H as (keyed & Hkeyed & H).
  apply bind_Ok_inv in H as (sorted & Hsorted & H). injection H as <-.
  rewrite <- (map_result_keyed _ _ _ Hkeyed).
  apply fmap_Permutation. destruct descending.
  - apply bind_Ok_inv in Hsorted as (s & Hs & Hsorted). injection Hsorted as <-.
    rewrite reverse_Permutation, (stable_sort_perm _ _ _ Hs).
    apply reverse_Permutation.
  - exact (stable_sort_perm _ _ _ Hsorted).
Qed.

Lemma sort_cves_perm (sort_by sort_order : string) (rows out : list row) :
  sort_cves sort_by sort_order rows = Ok out -> out ≡ₚ rows.
Proof.
  unfold sort_cves. destruct (sort_by =? "score")%string; apply list_sort_perm.
Qed.

Lemma filter_result_kept {A} (p : A -> result bool) (l l' : list A) (x : A) :
  filter_result p l = Ok l' -> x ∈ l' -> x ∈ l /\ p x = Ok true.
Proof.
  revert l'. induction l as [| y l IH]; intros l' H Hx; cbn [filter_result] in H.
  - injection H as <-. apply elem_of_nil in Hx. contradiction.
  - apply bind_Ok_inv in H as (keep & Hkeep & H).
    apply bind_Ok_inv in H as (ys & Hys & H). injection H as <-.
    destruct keep.
    + apply elem_of_cons in Hx as [-> | Hx].
      * split; [apply list_elem_of_here | exact Hkeep].
      * destruct (IH _ Hys Hx). split; [apply list_elem_of_further |]; assumption.
    + destruct (IH _ Hys Hx). split; [apply list_elem_of_further |]; assumption.
Qed.

Lemma py_slice_elem {A} (l : list A) (start stop : Z) (x : A) :
  x ∈ py_slice l start stop -> x ∈ l.
Proof.
  unfold py_slice. intros Hx.
  eapply elem_of_sublist; [exact Hx |].
  etrans; [apply sublist_take | apply sublist_drop].
Qed.

(** X17: what [index] shows. Whenever [index] returns, [load_csv] has
    returned the rows of the stored file, and every row of the page is one
    of them; when a text query is given its description contains the
    lower-cased query, case ignored; when a year is given its published
    date starts with that year; and the page count is not larger than for
    the whole store. *)
Theorem index_rows_match (args : request_args) (d : disk) (v : view) :
  index args d = Ok v ->
  exists rows,
    load_csv (store d) = Ok rows /\
    query v = lower (default "" (arg_q args)) /\
    year_filter v = default "" (arg_year args) /\
    (forall r, r ∈ cves v ->
       r ∈ rows /\
       (query v <> "" ->
        exists descr, r !! 1%nat = Some descr /\ contains (query v) (lower descr) = true) /\
       (year_filter v <> "" ->
        exists published, r !! 2%nat = Some published /\ first4 published = year_filter v)) /\
    total_pages v <= snd (paginate rows (page v)).
Proof.
  unfold index. intros H.
  apply bind_Ok_inv in H as (p & _ & H).
  apply bind_Ok_inv in H as (rows & Hload & H).
  apply bind_Ok_inv in H as (rows1 & Hrows1 & H).
  apply bind_Ok_inv in H as (rows2 & Hrows2 & H).
  apply bind_Ok_inv in H as (sorted & Hsorted & H).
  destruct (paginate sorted p) as [paginated pages] eqn:Hpage.
  injection H as <-. cbn [query year_filter cves total_pages page].
  exists rows. split; [exact Hload |].
  apply sort_cves_perm in Hsorted.
  assert (Hpaged : paginated = fst (paginate sorted p)) by (rewrite Hpage; reflexivity).
  assert (Hpages : pages = snd (paginate sorted p)) by (rewrite Hpage; reflexivity).
  assert (Hsub2 : forall r, r ∈ rows2 -> r ∈ rows1 /\
            (default "" (arg_year args) <> "" ->
             exists published, r !! 2%nat = Some published /\
                               first4 published = default "" (arg_year args))).
  { intros r Hr. destruct (default "" (arg_year args) =? "")%string eqn:Hy.
    - injection Hrows2 as <-. split; [exact Hr |].
      apply String.eqb_eq in Hy. intros Hne. contradiction.
    - destruct (filter_result_kept _ _ _ r Hrows2 Hr) as [Hin Hkeep].
      split; [exact Hin |]. intros _.
      unfold getitem in Hkeep. destruct (r !! 2%nat) as [published |]; [| discriminate].
      cbn in Hkeep. injection Hkeep as Hkeep. apply String.eqb_eq in Hkeep.
      exists published. split; [reflexivity | exact Hkeep]. }
  assert (Hsub1 : forall r, r ∈ rows1 -> r ∈ rows /\
            (lower (default "" (arg_q args)) <> "" ->
             exists descr, r !! 1%nat = Some descr /\
                           contains (lower (default "" (arg_q args))) (lower descr) = true)).
  { intros r Hr. destruct (lower (default "" (arg_q args)) =? "")%string eqn:Hq.
    - injection Hrows1 as <-. split; [exact Hr |].
      apply String.eqb_eq in Hq. intros Hne. contradiction.
    - destruct (filter_result_kept _ _ _ r Hrows1 Hr) as [Hin Hkeep].
      split; [exact Hin |]. intros _.
      unfold getitem in Hkeep. destruct (r !! 1%nat) as [descr |]; [| discriminate].
      cbn in Hkeep. injection Hkeep as Hkeep.
      exists descr. split; [reflexivity | exact Hkeep]. }
  split; [reflexivity |]. split; [reflexivity |]. split.
  - intros r Hr. subst paginated. unfold paginate in Hr. cbn [fst] in Hr.
    apply py_slice_elem in Hr. rewrite Hsorted in Hr.
    destruct (Hsub2 r Hr) as [Hr1 Hyear]. destruct (Hsub1 r Hr1) as [Hr0 Hquery].
    split; [exact Hr0 |]. split; assumption.
  - subst pages. unfold paginate, per_page. cbn [snd].
    apply Z.div_le_mono; [lia |].
    assert (Hlen1 : (length rows1 <= length rows)%nat).
    { destruct (lower (default "" (arg_q args)) =? "")%string.
      - injection Hrows1 as <-. reflexivity.
      - apply sublist_length. exact (filter_result_sublist _ _ _ Hrows1). }
    assert (Hlen2 : (length rows2 <= length rows1)%nat).
    { destruct (default "" (arg_year args) =? "")%string.
      - injection Hrows2 as <-. reflexivity.
      - apply sublist_length. exact (filter_result_sublist _ _ _ Hrows2). }
    rewrite (Permutation_length Hsorted). lia.
Qed.

Lemma index_rows_match_witness :
  exists v,
    index {| arg_q := Some "REMOTE"; arg_year := Some "2023"; arg_page := None;
             arg_sort := None; arg_order := None |}
          {| store := Some [HEADER; stored "CVE-1" "2023-06-01" "9.8";
                            ["CVE-2"; "Local privilege escalation"; "2023-07-01"; "7.0"]];
             stamp := None |} = Ok v /\
    query v = "remote" /\
    forall r, r ∈ cves v ->
      r ∈ [stored "CVE-1" "2023-06-01" "9.8";
           ["CVE-2"; "Local privilege escalation"; "2023-07-01"; "7.0"]].
Proof.
  destruct (index {| arg_q := Some "REMOTE"; arg_year := Some "2023"; arg_page := None;
                     arg_sort := None; arg_order := None |}
                  {| store := Some [HEADER; stored "CVE-1" "2023-06-01" "9.8";
                                    ["CVE-2"; "Local privilege escalation"; "2023-07-01"; "7.0"]];
                     stamp := None |}) as [v |] eqn:Hv;
    [| vm_compute in Hv; discriminate].
  exists v. split; [reflexivity |].
  destruct (index_rows_match _ _ v Hv) as (rows & Hload & Hq & _ & Hrows & _).
  split; [rewrite Hq; reflexivity |].
  vm_compute in Hload. injection Hload as <-.
  intros r Hr. exact (proj1 (Hrows r Hr)).
Defined.

(** ** Severity buckets *)

(** X18: the bucket 9 marks exactly the scores that [float] rejects: a
    score gets bucket 9 if and only if it cannot be parsed, and every
    other bucket the function returns lies between 0 and 8. *)
Theorem bucket_nine_iff_unparseable (score : string) :
  (get_score_bucket score = Some 9 <-> py_float score = None) /\
  (forall n, get_score_bucket score = Some n -> n <> 9 -> 0 <= n <= 8).
Proof.
  unfold get_score_bucket.
  destruct (py_float score) as [f |].
  - split.
    + split; [| discriminate].
      repeat (destruct (float_le_int f _); [discriminate |]). discriminate.
    + intros n.
      repeat (destruct (float_le_int f _); [intros [= <-]; lia |]). discriminate.
  - split; [split; reflexivity |]. intros n [= <-]. contradiction.
Qed.

(** X19: scores outside the expected range. The chain has no lower
    bound, so a negative score, zero and minus infinity all fall in bucket
    0; a score that parses to NaN fails every comparison and gets no bucket
    at all (not the bucket 9 of unparseable scores). *)
Theorem bucket_of_low_and_nan_scores (score : string) (f : spec_float) :
  py_float score = Some f ->
  (f = S754_nan -> get_score_bucket score = None) /\
  ((exists s, f = S754_zero s) \/ f = S754_infinity true \/
   (exists m e, f = S754_finite true m e) ->
   get_score_bucket score = Some 0).
Proof.
  intros Hf. unfold get_score_bucket. rewrite Hf. split.
  - intros ->. reflexivity.
  - intros [[s ->] | [-> | (m & e & ->)]]; reflexivity.
Qed.

Lemma bucket_of_low_and_nan_scores_witness :
  get_score_bucket "nan" = None /\ get_score_bucket "-3.5" = Some 0.
Proof.
  split.
  - apply (bucket_of_low_and_nan_scores "nan" S754_nan); reflexivity.
  - destruct (bucket_of_low_and_nan_scores "-3.5"
                (S754_finite true 7881299347898368 (-51))) as (_ & Hlow).
    + vm_compute. reflexivity.
    + apply Hlow. right. right. eauto.
Defined.

(** ** Sorting again *)

Section SortAgain.

Context {K A : Type} `{EqDecision K}.
Variable lt : K -> K -> result bool.
Variable ltb : K -> K -> bool.
Variable P : K -> Prop.
Variable key : A -> result K.
Variable keyf : A -> K.

Hypothesis lt_ltb : forall a b, P a -> P b -> lt a b = Ok (ltb a b).
Hypothesis ltb_irrefl : forall a, P a -> ltb a a = false.
Hypothesis ltb_asym : forall a b, P a -> P b -> ltb a b = true -> ltb b a = false.
Hypothesis ltb_negtrans : forall a b c, P a -> P b -> P c ->
  ltb b a = false -> ltb c b = false -> ltb c a = false.

(** The insertion sort leaves a sorted list as it is. *)
Lemma stable_sort_sorted (l : list (K * A)) :
  Forall (fun y : K * A => P (fst y)) l ->
  StronglySorted (fun x y : K * A => ltb (fst y) (fst x) = false) l ->
  stable_sort lt l = Ok l.
Proof.
  intros Hkeys Hsorted. induction Hsorted as [| x l _ IH Hx]; [reflexivity |].
  apply Forall_cons in Hkeys as [Px Hkeys].
  cbn [stable_sort]. rewrite (IH Hkeys). cbn.
  destruct l as [| y l]; [reflexivity |].
  apply Forall_cons in Hx as [Hxy _]. apply Forall_cons in Hkeys as [Py _].
  cbn [insert_sorted]. rewrite (lt_ltb _ _ Py Px), Hxy. reflexivity.
Qed.

Lemma list_sort_sorted (descending : bool) (l : list A) :
  Forall (fun x => key x = Ok (keyf x) /\ P (keyf x)) l ->
  StronglySorted
    (fun a b => if descending then ltb (keyf a) (keyf b) = false
                else ltb (keyf b) (keyf a) = false) l ->
  list_sort lt key descending l = Ok l.
Proof.
  intros Hl Hsorted. unfold list_sort.
  set (pair := fun x => (keyf x, x)).
  assert (Hsnd : forall l', snd <$> (pair <$> l') = l')
    by exact (fmap_snd_keyed keyf).
  rewrite (map_result_total _ pair).
  2:{ eapply Forall_impl; [exact Hl |]. intros x [-> _]. reflexivity. }
  cbn.
  assert (Hkeys : forall l', l' ≡ₚ l -> Forall (fun y : K * A => P (fst y)) (pair <$> l')).
  { intros l' Hperm. rewrite Forall_fmap, Hperm.
    eapply Forall_impl; [exact Hl |]. intros x [_ Hx]. exact Hx. }
  destruct descending.
  - rewrite <- fmap_reverse, stable_sort_sorted.
    + cbn [mbind result_bind].
      rewrite (fmap_reverse pair l), reverse_involutive, Hsnd. reflexivity.
    + apply Hkeys, reverse_Permutation.
    + apply StronglySorted_reverse in Hsorted.
      eapply StronglySorted_fmap; [| exact Hsorted].
      intros x y Hxy. exact Hxy.
  - rewrite stable_sort_sorted.
    + cbn [mbind result_bind]. rewrite Hsnd. reflexivity.
    + apply Hkeys. reflexivity.
    + eapply StronglySorted_fmap; [| exact Hsorted].
      intros x y Hxy. exact Hxy.
Qed.

Lemma list_sort_again (descending : bool) (l out : list A) :
  Forall (fun x => key x = Ok (keyf x) /\ P (keyf x)) l ->
  list_sort lt key descending l = Ok out ->
  list_sort lt key descending out = Ok out.
Proof.
  intros Hl Hout.
  destruct (list_sort_spec lt ltb P key keyf lt_ltb ltb_irrefl ltb_asym ltb_negtrans
              descending l Hl) as (out' & Hout' & Hperm & _ & Hsorted).
  rewrite Hout in Hout'. injection Hout' as <-.
  apply list_sort_sorted; [| exact Hsorted].
  rewrite Hperm. exact Hl.
Qed.

End SortAgain.

(** X20: sorting is idempotent. On rows that have the sort key (a date
    field; for the score sort a score with a bucket), sorting the result
    of [sort_cves] again with the same key and direction returns it
    unchanged, ascending as well as descending. *)
Theorem sort_cves_idempotent (sort_by sort_order : string) (rows out : list row) :
  Forall (fun r => is_Some (r !! 2%nat) /\
                   (sort_by = "score" -> is_Some (bucket_of r))) rows ->
  sort_cves sort_by sort_order rows = Ok out ->
  sort_cves sort_by sort_order out = Ok out.
Proof.
  intros Hrows. unfold sort_cves.
  destruct (String.eqb_spec sort_by "score") as [Hscore | Hdate].
  - apply (list_sort_again lt_bucket ltb_bucket is_Some score_key bucket_of).
    + intros a b [x ->] [y ->]. reflexivity.
    + intros a [x ->]. cbn. apply Z.ltb_irrefl.
    + intros a b [x ->] [y ->]. cbn. rewrite Z.ltb_lt, Z.ltb_ge. lia.
    + intros a b c [x ->] [y ->] [z ->]. cbn. rewrite !Z.ltb_ge. lia.
    + eapply Forall_impl; [exact Hrows |]. intros r [_ Hb].
      split; [apply score_key_total, bucket_of_Some_field |]; auto.
  - apply (list_sort_again lt_str String.ltb (fun _ => True) date_key date_of).
    + reflexivity.
    + intros a _. apply string_ltb_irrefl.
    + intros a b _ _. apply string_ltb_asym.
    + intros a b c _ _ _. apply string_ltb_negtrans.
    + eapply Forall_impl; [exact Hrows |]. intros r [Hd _].
      split; [apply date_key_total, Hd | exact I].
Qed.

Lemma sort_cves_idempotent_witness :
  sort_cves "score" "desc"
    [stored "CVE-3" "2024-01-01" "9.8"; stored "CVE-2" "2023-06-01" "5.5";
     stored "CVE-1" "2023-06-01" "5.0"]
  = Ok [stored "CVE-3" "2024-01-01" "9.8"; stored "CVE-2" "2023-06-01" "5.5";
        stored "CVE-1" "2023-06-01" "5.0"].
Proof.
  apply (sort_cves_idempotent "score" "desc"
           [stored "CVE-1" "2023-06-01" "5.0"; stored "CVE-2" "2023-06-01" "5.5";
            stored "CVE-3" "2024-01-01" "9.8"]).
  - repeat (apply List.Forall_cons;
            [split; [eexists; reflexivity | intros _; vm_compute; eexists; reflexivity] |]).
    apply List.Forall_nil.
  - vm_compute. reflexivity.
Defined.


(** ** Pages below 1 *)

(** X22: page numbers below 1 are sliced, not rejected. Page 0 is empty
    for every list. A negative page [p] counts from the end of the list:
    it is empty when the list has at most [100 * -p] rows and holds rows
    otherwise. *)
Theorem paginate_below_first (all_cves : list row) (p : Z) :
  (p = 0 -> fst (paginate all_cves p) = []) /\
  (p < 0 -> Z.of_nat (length all_cves) <= 100 * - p -> fst (paginate all_cves p) = []) /\
  (p < 0 -> 100 * - p < Z.of_nat (length all_cves) -> fst (paginate all_cves p) <> []).
Proof.
  unfold paginate, per_page. cbn [fst].
  split; [intros ->; apply py_slice_empty; [right; right | right]; reflexivity |].
  unfold py_slice.
  set (n := Z.of_nat (length all_cves)).
  assert (Hn : 0 <= n) by (unfold n; lia).
  split.
  - intros Hp Hlen.
    replace ((p - 1) * 100 <? 0) with true by (symmetry; apply Z.ltb_lt; lia).
    replace ((p - 1) * 100 + 100 <? 0) with true by (symmetry; apply Z.ltb_lt; lia).
    replace (Z.to_nat _) with 0%nat by lia. reflexivity.
  - intros Hp Hlen.
    replace ((p - 1) * 100 <? 0) with true by (symmetry; apply Z.ltb_lt; lia).
    replace ((p - 1) * 100 + 100 <? 0) with true by (symmetry; apply Z.ltb_lt; lia).
    intros Hnil. apply (f_equal length) in Hnil.
    rewrite length_take, length_drop in Hnil.
    change (length (@nil row)) with 0%nat in Hnil. unfold n in *. lia.
Qed.

Lemma paginate_below_first_witness :
  fst (paginate (replicate 250 (stored "CVE-1" "2023-06-01" "N/A")) (-1)) <> [] /\
  fst (paginate (replicate 250 (stored "CVE-1" "2023-06-01" "N/A")) 0) = [].
Proof.
  destruct (paginate_below_first (replicate 250 (stored "CVE-1" "2023-06-01" "N/A")) (-1))
    as (_ & _ & Hrows).
  destruct (paginate_below_first (replicate 250 (stored "CVE-1" "2023-06-01" "N/A")) 0)
    as (Hzero & _).
  split; [apply Hrows; [lia | rewrite length_replicate; lia] | apply Hzero; reflexivity].
Defined.
